(** * Library management backend: loan lifecycle and inventory ledger

    A shallow embedding of the request handlers of [main.py] (books,
    members and loans kept in three MongoDB collections) and of the
    document schemas of [schemas.py], followed by the properties of the
    borrow / return workflow, the overdue sweep, the member-deletion guard
    and the statistics endpoint.

    Modelling conventions
    - a collection is a finite map from [_id] to document ([gmap]): MongoDB
      keeps [_id] unique, [find_one] by [_id] is a lookup, [update_one] by
      [_id] rewrites the document in place, [update_many] maps over the
      collection;
    - a document is a record; a field that the code reads with
      [doc.get(key, default)] is an [option], [None] meaning that the
      document has no such key;
    - a handler is a computation in the monad [M]: it reads and writes the
      database and either returns a value or raises.  A write that happened
      before a [raise] stays in the database (there is no transaction);
    - Python integers are [Z]; a [datetime] is the number of microseconds
      since the epoch, a [Z]; the i-th reading of the wall clock made by a
      request is [clk i];
    - an [ObjectId] is the 96-bit number it encodes, an [N]; its string form
      is 24 hexadecimal digits. *)

From Stdlib Require Import ZArith NArith Ascii String.
From stdpp Require Import gmap strings list fin_maps sorting.

Local Open Scope Z_scope.

(** ** bson.ObjectId *)

Definition ObjectId := N.

Definition hex_digit (c : ascii) : option N :=
  let n := N_of_ascii c in
  if ((48 <=? n) && (n <=? 57))%N then Some (n - 48)%N
  else if ((97 <=? n) && (n <=? 102))%N then Some (n - 87)%N
  else if ((65 <=? n) && (n <=? 70))%N then Some (n - 55)%N
  else None.

Fixpoint from_hex (s : string) (acc : N) : option N :=
  match s with
  | EmptyString => Some acc
  | String c s' =>
      match hex_digit c with
      | Some d => from_hex s' (16 * acc + d)%N
      | None => None
      end
  end.

(** [ObjectId(s)] for a string [s]: defined on 24 hexadecimal digits, in
    either case, so that two spellings of the same digits give the same
    identifier.  (A 24-character string with white space among the digits,
    which only the hexadecimal parser of the driver lets through, is taken
    as malformed.) *)
Definition ObjectId_of_str (s : string) : option ObjectId :=
  if (String.length s =? 24)%nat then from_hex s 0%N else None.

(** [ObjectId.is_valid(s)] *)
Definition ObjectId_is_valid (s : string) : bool :=
  match ObjectId_of_str s with Some _ => true | None => false end.

Definition hex_char (d : N) : ascii :=
  ascii_of_N (if (d <? 10)%N then 48 + d else 87 + d)%N.

Fixpoint to_hex (digits : nat) (n : N) (acc : string) : string :=
  match digits with
  | O => acc
  | S k => to_hex k (n / 16)%N (String (hex_char (n mod 16)%N) acc)
  end.

(** [str(oid)]: 24 lower-case hexadecimal digits. *)
Definition ObjectId_str (o : ObjectId) : string := to_hex 24 o "".

(** ** Documents (schemas.py) *)

Definition datetime := Z.

(** [timedelta(days=d)] in microseconds. *)
Definition timedelta_days (d : Z) : Z := d * 86400000000.

Record Book := mkBook {
  title : string;
  author : string;
  isbn : string;
  category : option string;
  description : option string;
  total_copies : Z;
  copies_available : option Z;
  tags : list string;
  book_updated_at : option datetime
}.

Record Member := mkMember {
  name : string;
  email : string;
  phone : option string;
  address : option string;
  is_active : option bool;
  member_updated_at : option datetime
}.

Record Loan := mkLoan {
  member_id : string;
  book_id : string;
  borrowed_at : datetime;
  due_at : datetime;
  returned_at : option datetime;
  status : string;
  loan_updated_at : option datetime
}.

(** The database [db]: the collections "book", "member" and "loan". *)
Record DB := mkDB {
  db_book : gmap ObjectId Book;
  db_member : gmap ObjectId Member;
  db_loan : gmap ObjectId Loan
}.

(** ** Exceptions and the handler monad *)

Inductive exn :=
| HTTPException (status_code : Z) (detail : string)
| InvalidId (oid : string).

Inductive result (A : Type) :=
| Ok (a : A)
| Raise (e : exn).
Arguments Ok {A} a.
Arguments Raise {A} e.

Definition M (A : Type) : Type := DB → result A * DB.

Global Instance M_ret : MRet M := λ A a s, (Ok a, s).
Global Instance M_bind : MBind M := λ A B f m s,
  match m s with
  | (Ok a, s') => f a s'
  | (Raise e, s') => (Raise e, s')
  end.

Definition raise {A} (e : exn) : M A := λ s, (Raise e, s).

(** [if cond: raise e] *)
Definition raise_if (cond : bool) (e : exn) : M unit :=
  if cond then raise e else mret tt.

(** [ObjectId(s)] raises [InvalidId] on a malformed string. *)
Definition ObjectId_new (s : string) : M ObjectId :=
  match ObjectId_of_str s with
  | Some o => mret o
  | None => raise (InvalidId s)
  end.

(** The error kinds of the interface, as the handlers raise them. *)
Definition InvalidMember : exn := HTTPException 400 "Member not found or inactive".
Definition BookNotFound : exn := HTTPException 404 "Book not found".
Definition OutOfStock : exn := HTTPException 400 "No copies available".
Definition LoanNotFound : exn := HTTPException 404 "Loan not found".
Definition HasActiveLoans : exn := HTTPException 400 "Member has active loans".
Definition MemberNotFound : exn := HTTPException 404 "Member not found".

(** ** Collections (pymongo) *)

Record Collection (A : Type) := mkCollection {
  docs : DB → gmap ObjectId A;
  set_docs : gmap ObjectId A → DB → DB
}.
Arguments docs {A} _ _.
Arguments set_docs {A} _ _ _.

Definition book : Collection Book :=
  mkCollection Book db_book (λ m s, mkDB m (db_member s) (db_loan s)).
Definition member : Collection Member :=
  mkCollection Member db_member (λ m s, mkDB (db_book s) m (db_loan s)).
Definition loan : Collection Loan :=
  mkCollection Loan db_loan (λ m s, mkDB (db_book s) (db_member s) m).

(** [coll.find_one({"_id": o})]: the document, with its [_id]. *)
Definition find_one {A} (coll : Collection A) (o : ObjectId)
  : M (option (ObjectId * A)) :=
  λ s, (Ok ((λ d, (o, d)) <$> docs coll s !! o), s).

(** [coll.update_one({"_id": o}, update)]: no effect when nothing matches. *)
Definition update_one {A} (coll : Collection A) (o : ObjectId) (update : A → A)
  : M unit :=
  λ s, (Ok tt, set_docs coll (alter update o (docs coll s)) s).

(** [coll.update_many(query, update)] *)
Definition update_many {A} (coll : Collection A) (query : A → bool)
    (update : A → A) : M unit :=
  λ s, (Ok tt,
        set_docs coll ((λ d, if query d then update d else d) <$> docs coll s) s).

(** [coll.delete_one({"_id": o})], returning [deleted_count]. *)
Definition delete_one {A} (coll : Collection A) (o : ObjectId) : M Z :=
  λ s, match docs coll s !! o with
       | Some _ => (Ok 1, set_docs coll (delete o (docs coll s)) s)
       | None => (Ok 0, s)
       end.

(** [coll.count_documents(query)] *)
Definition count_documents {A} (coll : Collection A) (query : A → bool) : M Z :=
  λ s, (Ok (Z.of_nat (size (filter (λ kv, query kv.2 = true) (docs coll s)))), s).

(** [coll.find(query)], as the list of matching documents. *)
Definition find {A} (coll : Collection A) (query : A → bool)
  : M (list (ObjectId * A)) :=
  λ s, (Ok (filter (λ kv, query kv.2 = true) (map_to_list (docs coll s))), s).

(** Modelled from the spec: [create_document] of database.py, which is not
    among the sources.  The spec says that the store adapter offers a
    generic create primitive and that "each entity owns an identifier
    assigned at creation"; main.py passes the returned value to
    [ObjectId(...)].  The new document gets an identifier that no document
    of the collection has, and the identifier is returned as a string. *)
Definition create_document {A} (coll : Collection A) (data : A) : M string :=
  λ s, let o := fresh (dom (docs coll s)) in
       (Ok (ObjectId_str o), set_docs coll (<[o := data]> (docs coll s)) s).

(** ** Helpers and request models (main.py) *)

Record LoanOut := mkLoanOut {
  id : string;
  fields : Loan
}.

(** [to_str_id(doc)]: [_id] becomes the string [id]; a missing document is
    returned as it is. *)
Definition to_str_id (doc : option (ObjectId * Loan)) : option LoanOut :=
  match doc with
  | None => None
  | Some (o, l) => Some (mkLoanOut (ObjectId_str o) l)
  end.

Record BorrowRequest := mkBorrowRequest {
  req_member_id : string;
  req_book_id : string;
  days : Z
}.


(** [{"$inc": {"copies_available": delta}, "$set": {"updated_at": t}}];
    [$inc] on a document without the field sets it to [delta]. *)
Definition inc_copies_available (delta : Z) (t : datetime) (b : Book) : Book :=
  mkBook (title b) (author b) (isbn b) (category b) (description b)
         (total_copies b) (Some (default 0 (copies_available b) + delta))
         (tags b) (Some t).

(** [{"$set": {"status": "returned", "returned_at": now, "updated_at": t}}] *)
Definition set_returned (now t : datetime) (l : Loan) : Loan :=
  mkLoan (member_id l) (book_id l) (borrowed_at l) (due_at l)
         (Some now) "returned" (Some t).

(** [{"$set": {"status": "overdue"}}] *)
Definition set_overdue (l : Loan) : Loan :=
  mkLoan (member_id l) (book_id l) (borrowed_at l) (due_at l)
         (returned_at l) "overdue" (loan_updated_at l).

(** ** Loans endpoints *)

(** POST /api/loans/borrow *)
Definition borrow_book (clk : nat → datetime) (payload : BorrowRequest)
  : M (option LoanOut) :=
  raise_if (negb (ObjectId_is_valid (req_member_id payload))
            || negb (ObjectId_is_valid (req_book_id payload)))
           (HTTPException 400 "Invalid member or book id");;
  mid ← ObjectId_new (req_member_id payload);
  mem ← find_one member mid;
  raise_if (match mem with
            | None => true
            | Some (_, m) => negb (default true (is_active m))
            end)
           (HTTPException 400 "Member not found or inactive");;
  bid ← ObjectId_new (req_book_id payload);
  bk ← find_one book bid;
  match bk with
  | None => raise (HTTPException 404 "Book not found")
  | Some (_, b) =>
      raise_if (default 0 (copies_available b) <=? 0)
               (HTTPException 400 "No copies available");;
      let due := clk 0%nat + timedelta_days (days payload) in
      let ln := mkLoan (req_member_id payload) (req_book_id payload)
                       (clk 1%nat) due None "borrowed" None in
      loan_id ← create_document loan ln;
      bid' ← ObjectId_new (req_book_id payload);
      update_one book bid' (inc_copies_available (-1) (clk 2%nat));;
      lid ← ObjectId_new loan_id;
      doc ← find_one loan lid;
      mret (to_str_id doc)
  end.

(** POST /api/loans/{loan_id}/return *)
Definition return_book (clk : nat → datetime) (loan_id : string)
  : M (option LoanOut) :=
  raise_if (negb (ObjectId_is_valid loan_id))
           (HTTPException 400 "Invalid loan id");;
  lid ← ObjectId_new loan_id;
  ln ← find_one loan lid;
  match ln with
  | None => raise (HTTPException 404 "Loan not found")
  | Some (_, l) =>
      if String.eqb (status l) "returned" then mret (to_str_id ln)
      else
        let now := clk 0%nat in
        lid' ← ObjectId_new loan_id;
        update_one loan lid' (set_returned now (clk 1%nat));;
        bid ← ObjectId_new (book_id l);
        update_one book bid (inc_copies_available 1 (clk 2%nat));;
        lid'' ← ObjectId_new loan_id;
        doc ← find_one loan lid'';
        mret (to_str_id doc)
  end.

Record LoanView := mkLoanView {
  view : LoanOut;
  member_name : option string;
  book_title : option string
}.

(** [.sort("borrowed_at", -1)] *)
Fixpoint insert_desc (d : ObjectId * Loan) (l : list (ObjectId * Loan))
  : list (ObjectId * Loan) :=
  match l with
  | [] => [d]
  | x :: r =>
      if borrowed_at x.2 <? borrowed_at d.2 then d :: l
      else x :: insert_desc d r
  end.

Definition sort_borrowed_at_desc (l : list (ObjectId * Loan))
  : list (ObjectId * Loan) :=
  foldr insert_desc [] l.

(** [{str(d["_id"]): d for d in ds}]: a later document replaces an earlier
    one under the same key. *)
Definition by_str_id {A} (ds : list (ObjectId * A)) : gmap string A :=
  list_to_map (reverse ((λ kv, (ObjectId_str kv.1, kv.2)) <$> ds)).

(** The query of the overdue sweep:
    [{"status": "borrowed", "due_at": {"$lt": now}}] *)
Definition is_overdue (now : datetime) (l : Loan) : bool :=
  String.eqb (status l) "borrowed" && (due_at l <? now).

(** GET /api/loans *)
Definition list_loans (clk : nat → datetime) (status_q : option string)
  : M (list LoanView) :=
  let query (l : Loan) : bool :=
    match status_q with
    | None | Some "" => true
    | Some st => String.eqb (status l) st
    end in
  let now := clk 0%nat in
  update_many loan (is_overdue now) set_overdue;;
  ds ← find loan query;
  let ds := sort_borrowed_at_desc ds in
  ms ← find member (λ _, true);
  let members_map := by_str_id ms in
  bs ← find book (λ _, true);
  let books_map := by_str_id bs in
  mret ((λ d, mkLoanView (mkLoanOut (ObjectId_str d.1) d.2)
                         (name <$> members_map !! member_id d.2)
                         (title <$> books_map !! book_id d.2)) <$> ds).

(** ** Members endpoints *)

(** The query of the deletion guard:
    [{"member_id": member_id, "status": {"$in": ["borrowed", "overdue"]}}] *)
Definition is_active_loan_of (member_id' : string) (l : Loan) : bool :=
  String.eqb (member_id l) member_id'
  && (String.eqb (status l) "borrowed" || String.eqb (status l) "overdue").

(** DELETE /api/members/{member_id} *)
Definition delete_member (member_id' : string) : M bool :=
  raise_if (negb (ObjectId_is_valid member_id'))
           (HTTPException 400 "Invalid member id");;
  active_loans ← count_documents loan (is_active_loan_of member_id');
  raise_if (0 <? active_loans) (HTTPException 400 "Member has active loans");;
  mid ← ObjectId_new member_id';
  deleted_count ← delete_one member mid;
  raise_if (deleted_count =? 0) (HTTPException 404 "Member not found");;
  mret true.

(** ** Stats endpoint *)

Record Stats := mkStats {
  books : Z;
  copies : Z;
  available : Z;
  members : Z;
  active_loans : Z;
  overdue : Z
}.

(** [db["book"].aggregate([{"$group": {"_id": None, "total": {"$sum":
    "$total_copies"}, "available": {"$sum": "$copies_available"}}}])]: one
    group when the collection has documents, none when it is empty; [$sum]
    counts a missing field as 0. *)
Definition aggregate_copies : M (list (Z * Z)) :=
  λ s, let bs := map_to_list (db_book s) in
       (Ok (match bs with
            | [] => []
            | _ => [(foldr (λ kv acc, total_copies kv.2 + acc) 0 bs,
                     foldr (λ kv acc, default 0 (copies_available kv.2) + acc) 0 bs)]
            end), s).

(** GET /api/stats *)
Definition stats : M Stats :=
  total_books ← count_documents book (λ _, true);
  total_copies ← aggregate_copies;
  total_members ← count_documents member (λ _, true);
  active_loans ← count_documents loan
    (λ l, String.eqb (status l) "borrowed" || String.eqb (status l) "overdue");
  overdue ← count_documents loan (λ l, String.eqb (status l) "overdue");
  let total := match total_copies with r :: _ => r.1 | [] => 0 end in
  let available := match total_copies with r :: _ => r.2 | [] => 0 end in
  mret (mkStats total_books total available total_members active_loans overdue).

(** ** Sequences of borrow and return requests *)

Inductive request :=
| Borrow (clk : nat → datetime) (payload : BorrowRequest)
| Return (clk : nat → datetime) (loan_id : string).

Definition handle (r : request) : M (option LoanOut) :=
  match r with
  | Borrow clk payload => borrow_book clk payload
  | Return clk loan_id => return_book clk loan_id
  end.

Definition is_ok {A} (r : result A) : bool :=
  match r with Ok _ => true | Raise _ => false end.

(** The database after the requests [rs], served one after the other. *)
Fixpoint run (rs : list request) (s : DB) : DB :=
  match rs with
  | [] => s
  | r :: rs' => run rs' (handle r s).2
  end.

(** Every request of [rs] is answered without an error. *)
Fixpoint all_ok (rs : list request) (s : DB) : bool :=
  match rs with
  | [] => true
  | r :: rs' => is_ok (handle r s).1 && all_ok rs' (handle r s).2
  end.

(** ** Counting and summing over a collection *)

(** The number of documents of a collection that satisfy [P]. *)
Definition count_where {A} (P : A → Prop) `{∀ x, Decision (P x)}
    (m : gmap ObjectId A) : Z :=
  Z.of_nat (size (filter (λ kv, P kv.2) m)).

(** The sum of [f] over the documents of a collection. *)
Definition sum_over {A} (f : A → Z) (m : gmap ObjectId A) : Z :=
  map_fold (λ _ d acc, f d + acc) 0 m.

(** ** Inventory invariants *)

(** [book.get("copies_available", 0)] *)
Definition avail (b : Book) : Z := default 0 (copies_available b).

(** [0 ≤ copies_available ≤ total_copies] for the book [o] of [s]. *)
Definition in_bounds (s : DB) (o : ObjectId) : Prop :=
  ∃ b, db_book s !! o = Some b ∧ 0 ≤ avail b ≤ total_copies b.

(** The loan [l] is out for the book [o]: it is not returned and its
    [book_id] is the identifier [o], as [return_book] resolves it. *)
Definition out_for (o : ObjectId) (l : Loan) : Prop :=
  ObjectId_of_str (book_id l) = Some o ∧ status l ≠ "returned".

Global Instance out_for_dec o l : Decision (out_for o l).
Proof. unfold out_for. apply _. Defined.

(** The number of loans of [s] that are out for the book [o]. *)
Definition lent_out (s : DB) (o : ObjectId) : Z :=
  count_where (out_for o) (db_loan s).

(** The copies of the book [o] are accounted for: those available and those
    lent out do not exceed the copies owned. *)
Definition accounted (s : DB) (o : ObjectId) : Prop :=
  ∃ b, db_book s !! o = Some b
       ∧ 0 ≤ avail b ∧ avail b + lent_out s o ≤ total_copies b.

(** ** Effects of the handlers, written out *)

(** The loan document that [borrow_book] creates. *)
Definition new_loan (clk : nat → datetime) (payload : BorrowRequest) : Loan :=
  mkLoan (req_member_id payload) (req_book_id payload) (clk 1%nat)
         (clk 0%nat + timedelta_days (days payload)) None "borrowed" None.

(** The database after a borrow of the book [bid] that passed every check. *)
Definition borrowed_db (clk : nat → datetime) (payload : BorrowRequest)
    (bid : ObjectId) (s : DB) : DB :=
  mkDB (alter (inc_copies_available (-1) (clk 2%nat)) bid (db_book s))
       (db_member s)
       (<[fresh (dom (db_loan s)) := new_loan clk payload]> (db_loan s)).

(** The database after [return_book] has marked the loan [lid] returned. *)
Definition marked_returned_db (clk : nat → datetime) (lid : ObjectId) (s : DB)
  : DB :=
  mkDB (db_book s) (db_member s)
       (alter (set_returned (clk 0%nat) (clk 1%nat)) lid (db_loan s)).

(** The database after a return of the loan [lid], a loan of the book [bid]. *)
Definition returned_db (clk : nat → datetime) (lid bid : ObjectId) (s : DB)
  : DB :=
  mkDB (alter (inc_copies_available 1 (clk 2%nat)) bid (db_book s))
       (db_member s)
       (alter (set_returned (clk 0%nat) (clk 1%nat)) lid (db_loan s)).

(** The database after the overdue sweep made at [now]. *)
Definition sweep (now : datetime) (s : DB) : DB :=
  mkDB (db_book s) (db_member s)
       ((λ l, if is_overdue now l then set_overdue l else l) <$> db_loan s).

(** ** A small library, used to run the handlers on concrete requests *)

Module Sample.

Definition clock (i : nat) : datetime := 1700000000000000 + Z.of_nat i.

Definition dune : Book :=
  mkBook "Dune" "Frank Herbert" "9780441013593" (Some "sf") None
         1 (Some 1) ["classic"] None.
Definition emma : Book :=
  mkBook "Emma" "Jane Austen" "9780141439587" None None
         2 (Some 0) [] None.

Definition ann : Member :=
  mkMember "Ann" "ann@example.org" None None (Some true) None.
Definition bob : Member :=
  mkMember "Bob" "bob@example.org" None None (Some false) None.
(** a member document without the key [is_active] *)
Definition cyd : Member :=
  mkMember "Cyd" "cyd@example.org" None None None None.

Definition dune_id : string := "0000000000000000000000b1".
Definition emma_id : string := "0000000000000000000000b2".
Definition ann_id : string := "0000000000000000000000a1".
Definition bob_id : string := "0000000000000000000000a2".
Definition cyd_id : string := "0000000000000000000000a3".
Definition loan_id : string := "0000000000000000000000c1".

(** Ann holds a copy of "Emma", due at [clock 0 + 5]. *)
Definition ann_emma : Loan :=
  mkLoan ann_id emma_id 1600000000000000 (clock 0 + 5) None "borrowed" None.

(** Cyd brought "Emma" back, late. *)
Definition cyd_emma : Loan :=
  mkLoan cyd_id emma_id 1500000000000000 1500000000000009
         (Some 1500000000000020) "returned" (Some 1500000000000021).

Definition loan_id' : string := "0000000000000000000000c2".

Definition library : DB :=
  mkDB {[ 177%N := dune; 178%N := emma ]}
       {[ 161%N := ann; 162%N := bob; 163%N := cyd ]}
       {[ 193%N := ann_emma; 194%N := cyd_emma ]}.

(** A database in which the only copy of "Dune" is on the shelf and a
    loan of "Dune" is still open. *)
Definition ann_has_dune : Loan :=
  mkLoan ann_id dune_id 1600000000000000 (clock 0 + 5) None "borrowed" None.

Definition overstocked : DB :=
  mkDB {[ 177%N := dune ]} {[ 161%N := ann ]} {[ 193%N := ann_has_dune ]}.

Definition ann_dune : BorrowRequest := mkBorrowRequest ann_id dune_id 14.
Definition bob_dune : BorrowRequest := mkBorrowRequest bob_id dune_id 14.
Definition cyd_dune : BorrowRequest := mkBorrowRequest cyd_id dune_id 14.
Definition ann_emma_again : BorrowRequest := mkBorrowRequest ann_id emma_id 7.

(** Ann's identifier, written with an upper-case digit: the same ObjectId. *)
Definition ann_id_upper : string := "0000000000000000000000A1".

(** A database with Ann, "Dune" and no loan yet. *)
Definition reading_room : DB :=
  mkDB {[ 177%N := dune ]} {[ 161%N := ann ]} ∅.

Definition ann_dune_upper : BorrowRequest :=
  mkBorrowRequest ann_id_upper dune_id 14.

End Sample.

(** ** Books and members endpoints *)

(** The response form of a book or member document. *)
Record Out (A : Type) := mkOut {
  out_id : string;
  out_doc : A
}.
Arguments mkOut {A} _ _.
Arguments out_id {A} _.
Arguments out_doc {A} _.

(** [to_str_id(doc)] for the documents of the other collections. *)
Definition to_str_id_of {A} (doc : option (ObjectId * A)) : option (Out A) :=
  match doc with
  | None => None
  | Some (o, d) => Some (mkOut (ObjectId_str o) d)
  end.

(** [coll.update_one({"_id": o}, update).matched_count] *)
Definition update_one_matched {A} (coll : Collection A) (o : ObjectId)
    (update : A → A) : M Z :=
  λ s, (Ok (match docs coll s !! o with Some _ => 1 | None => 0 end),
        set_docs coll (alter update o (docs coll s)) s).

(** [.sort(key, 1)]: insertion into a list sorted by [le]. *)
Fixpoint insert_by {A} (le : A → A → bool) (d : A) (l : list A) : list A :=
  match l with
  | [] => [d]
  | x :: r => if le d x then d :: l else x :: insert_by le d r
  end.

Definition sort_by {A} (le : A → A → bool) (l : list A) : list A :=
  foldr (insert_by le) [] l.

(** What a model constructor of pydantic gives: the model, or a
    [ValidationError] raised in the handler. *)
Inductive checked (A : Type) :=
| Passed (a : A)
| ValidationError.
Arguments Passed {A} a.
Arguments ValidationError {A}.

Record CreateBook := mkCreateBook {
  cb_title : string;
  cb_author : string;
  cb_isbn : string;
  cb_category : option string;
  cb_description : option string;
  cb_total_copies : Z;
  cb_copies_available : option Z;
  cb_tags : list string
}.

(** [total_copies: int = Field(1, ge=0)], checked before the handler runs;
    [copies_available] of the request has no bound. *)
Definition CreateBook_valid (payload : CreateBook) : Prop :=
  0 ≤ cb_total_copies payload.

(** The model constructor [BookSchema], called on the fields of [data]:
    [total_copies] and [copies_available] are [Field(..., ge=0)]. *)
Definition BookSchema (title author isbn : string)
    (category description : option string) (total_copies copies_available : Z)
    (tags : list string) : checked Book :=
  if (0 <=? total_copies) && (0 <=? copies_available)
  then Passed (mkBook title author isbn category description total_copies
                      (Some copies_available) tags None)
  else ValidationError.

(** POST /api/books.  The model is built, and may be refused, before the
    database is used. *)
Definition create_book (payload : CreateBook) (s : DB)
  : checked (result (option (Out Book))) * DB :=
  let copies_available :=
    match cb_copies_available payload with
    | None => cb_total_copies payload
    | Some a => a
    end in
  match BookSchema (cb_title payload) (cb_author payload) (cb_isbn payload)
                   (cb_category payload) (cb_description payload)
                   (cb_total_copies payload) copies_available
                   (cb_tags payload) with
  | ValidationError => (ValidationError, s)
  | Passed bk =>
      let '(r, s') :=
        (new_id ← create_document book bk;
         oid ← ObjectId_new new_id;
         doc ← find_one book oid;
         mret (to_str_id_of doc)) s in
      (Passed r, s')
  end.

Record UpdateBook := mkUpdateBook {
  ub_title : option string;
  ub_author : option string;
  ub_isbn : option string;
  ub_category : option string;
  ub_description : option string;
  ub_total_copies : option Z;
  ub_copies_available : option Z;
  ub_tags : option (list string)
}.

(** [Field(None, ge=0)] on [total_copies] and [copies_available], checked
    before the handler runs. *)
Definition UpdateBook_valid (payload : UpdateBook) : Prop :=
  (∀ n, ub_total_copies payload = Some n → 0 ≤ n)
  ∧ (∀ n, ub_copies_available payload = Some n → 0 ≤ n).

(** The database stores integers of at most 64 bits, and the driver does
    not encode a larger one: [update_book] is modelled for the requests whose
    integers it can send. *)
Definition UpdateBook_encodable (payload : UpdateBook) : Prop :=
  (∀ n, ub_total_copies payload = Some n → n < 2 ^ 63)
  ∧ (∀ n, ub_copies_available payload = Some n → n < 2 ^ 63).

(** [not update], for [update = {k: v for k, v in ... if v is not None}] *)
Definition UpdateBook_empty (payload : UpdateBook) : bool :=
  match payload with
  | mkUpdateBook None None None None None None None None => true
  | _ => false
  end.

(** [{"$set": update}], with [update["updated_at"] = t] *)
Definition set_book (payload : UpdateBook) (t : datetime) (b : Book) : Book :=
  mkBook (default (title b) (ub_title payload))
         (default (author b) (ub_author payload))
         (default (isbn b) (ub_isbn payload))
         (match ub_category payload with Some c => Some c | None => category b end)
         (match ub_description payload with
          | Some d => Some d | None => description b end)
         (default (total_copies b) (ub_total_copies payload))
         (match ub_copies_available payload with
          | Some a => Some a | None => copies_available b end)
         (default (tags b) (ub_tags payload))
         (Some t).

(** PUT /api/books/{book_id} *)
Definition update_book (clk : nat → datetime) (book_id' : string)
    (payload : UpdateBook) : M (option (Out Book)) :=
  raise_if (negb (ObjectId_is_valid book_id'))
           (HTTPException 400 "Invalid book id");;
  raise_if (UpdateBook_empty payload)
           (HTTPException 400 "No fields to update");;
  let t := clk 0%nat in
  oid ← ObjectId_new book_id';
  matched_count ← update_one_matched book oid (set_book payload t);
  raise_if (matched_count =? 0) (HTTPException 404 "Book not found");;
  oid' ← ObjectId_new book_id';
  doc ← find_one book oid';
  mret (to_str_id_of doc).

(** DELETE /api/books/{book_id} *)
Definition delete_book (book_id' : string) : M bool :=
  raise_if (negb (ObjectId_is_valid book_id'))
           (HTTPException 400 "Invalid book id");;
  oid ← ObjectId_new book_id';
  deleted_count ← delete_one book oid;
  raise_if (deleted_count =? 0) (HTTPException 404 "Book not found");;
  mret true.

(** What a handler gets from a [find] whose filter carries a [$regex]: it
    runs on with the rows, or the driver raises [OperationFailure] because
    the database refuses the pattern; the handlers do not catch it. *)
Inductive fetched (A : Type) :=
| Fetched (a : A)
| OperationFailure.
Arguments Fetched {A} a.
Arguments OperationFailure {A}.

(** GET /api/books.  [regex pattern] stands for what the database makes of
    [{"$regex": pattern, "$options": "i"}]: [None] when it refuses the
    pattern, otherwise the match against a string; on the array [tags] one
    matching element is enough.  A refused pattern fails the whole request,
    whatever the books are; nothing is written either way. *)
Definition list_books (regex : string → option (string → bool))
    (q category' : option string) (s : DB)
  : fetched (result (list (Out Book))) * DB :=
  let text_query : option (Book → bool) :=
    match q with
    | None | Some "" => Some (λ _, true)
    | Some pat =>
        match regex pat with
        | None => None
        | Some matches =>
            Some (λ b, matches (title b) || matches (author b)
                       || matches (isbn b) || existsb matches (tags b))
        end
    end in
  match text_query with
  | None => (OperationFailure, s)
  | Some text =>
      let query (b : Book) : bool :=
        text b
        && match category' with
           | None | Some "" => true
           | Some c => bool_decide (category b = Some c)
           end in
      let '(r, s') :=
        (ds ← find book query;
         let ds := sort_by (λ d1 d2, String.leb (title d1.2) (title d2.2)) ds in
         mret ((λ d, mkOut (ObjectId_str d.1) d.2) <$> ds)) s in
      (Fetched r, s')
  end.

Record CreateMember := mkCreateMember {
  cm_name : string;
  cm_email : string;
  cm_phone : option string;
  cm_address : option string;
  cm_is_active : bool
}.

(** POST /api/members; [MemberSchema] has no bound to check. *)
Definition create_member (payload : CreateMember) : M (option (Out Member)) :=
  let mem := mkMember (cm_name payload) (cm_email payload) (cm_phone payload)
                      (cm_address payload) (Some (cm_is_active payload)) None in
  new_id ← create_document member mem;
  oid ← ObjectId_new new_id;
  doc ← find_one member oid;
  mret (to_str_id_of doc).

Record UpdateMember := mkUpdateMember {
  um_name : option string;
  um_email : option string;
  um_phone : option string;
  um_address : option string;
  um_is_active : option bool
}.

Definition UpdateMember_empty (payload : UpdateMember) : bool :=
  match payload with
  | mkUpdateMember None None None None None => true
  | _ => false
  end.

Definition set_member (payload : UpdateMember) (t : datetime) (m : Member)
  : Member :=
  mkMember (default (name m) (um_name payload))
           (default (email m) (um_email payload))
           (match um_phone payload with Some p => Some p | None => phone m end)
           (match um_address payload with
            | Some a => Some a | None => address m end)
           (match um_is_active payload with
            | Some a => Some a | None => is_active m end)
           (Some t).

(** PUT /api/members/{member_id} *)
Definition update_member (clk : nat → datetime) (member_id' : string)
    (payload : UpdateMember) : M (option (Out Member)) :=
  raise_if (negb (ObjectId_is_valid member_id'))
           (HTTPException 400 "Invalid member id");;
  raise_if (UpdateMember_empty payload)
           (HTTPException 400 "No fields to update");;
  let t := clk 0%nat in
  oid ← ObjectId_new member_id';
  matched_count ← update_one_matched member oid (set_member payload t);
  raise_if (matched_count =? 0) (HTTPException 404 "Member not found");;
  oid' ← ObjectId_new member_id';
  doc ← find_one member oid';
  mret (to_str_id_of doc).

(** GET /api/members; a member without [phone] does not match on it.  As
    in [list_books], a pattern that the database refuses fails the request. *)
Definition list_members (regex : string → option (string → bool))
    (q : option string) (s : DB)
  : fetched (result (list (Out Member))) * DB :=
  let query : option (Member → bool) :=
    match q with
    | None | Some "" => Some (λ _, true)
    | Some pat =>
        match regex pat with
        | None => None
        | Some matches =>
            Some (λ m, matches (name m) || matches (email m)
                       || match phone m with
                          | Some p => matches p
                          | None => false
                          end)
        end
    end in
  match query with
  | None => (OperationFailure, s)
  | Some query =>
      let '(r, s') :=
        (ds ← find member query;
         let ds := sort_by (λ d1 d2, String.leb (name d1.2) (name d2.2)) ds in
         mret ((λ d, mkOut (ObjectId_str d.1) d.2) <$> ds)) s in
      (Fetched r, s')
  end.

(** ** Sequences of requests to any endpoint *)

Inductive action :=
| DoListBooks (regex : string → option (string → bool))
              (q category' : option string)
| DoCreateBook (payload : CreateBook)
| DoUpdateBook (clk : nat → datetime) (book_id' : string) (payload : UpdateBook)
| DoDeleteBook (book_id' : string)
| DoListMembers (regex : string → option (string → bool)) (q : option string)
| DoCreateMember (payload : CreateMember)
| DoUpdateMember (clk : nat → datetime) (member_id' : string)
                 (payload : UpdateMember)
| DoDeleteMember (member_id' : string)
| DoListLoans (clk : nat → datetime) (status_q : option string)
| DoBorrow (clk : nat → datetime) (payload : BorrowRequest)
| DoReturn (clk : nat → datetime) (loan_id : string)
| DoStats.

(** The database after one request. *)
Definition after (a : action) (s : DB) : DB :=
  match a with
  | DoListBooks regex q c => (list_books regex q c s).2
  | DoCreateBook payload => (create_book payload s).2
  | DoUpdateBook clk i payload => (update_book clk i payload s).2
  | DoDeleteBook i => (delete_book i s).2
  | DoListMembers regex q => (list_members regex q s).2
  | DoCreateMember payload => (create_member payload s).2
  | DoUpdateMember clk i payload => (update_member clk i payload s).2
  | DoDeleteMember i => (delete_member i s).2
  | DoListLoans clk q => (list_loans clk q s).2
  | DoBorrow clk payload => (borrow_book clk payload s).2
  | DoReturn clk i => (return_book clk i s).2
  | DoStats => (stats s).2
  end.

(** The database after the requests [acts], served one after the other. *)
Definition after_all (acts : list action) (s : DB) : DB :=
  foldl (λ s a, after a s) s acts.

(** ** The life of a loan, and the requests that spare a book's stock *)

(** [l'] is a later state of the loan [l]: it is the loan of the same
    member and book, borrowed and due at the same times; a returned loan
    does not change any more; the status stays, or goes from "borrowed" to
    "overdue", or becomes "returned". *)
Definition evolves (l l' : Loan) : Prop :=
  member_id l' = member_id l ∧ book_id l' = book_id l
  ∧ borrowed_at l' = borrowed_at l ∧ due_at l' = due_at l
  ∧ (status l = "returned" → l' = l)
  ∧ (status l' = status l
     ∨ (status l = "borrowed" ∧ status l' = "overdue")
     ∨ status l' = "returned").

(** The request [a] does not write the stock fields of the book [o] and
    does not delete it. *)
Definition spares (o : ObjectId) (a : action) : Prop :=
  match a with
  | DoUpdateBook _ i payload =>
      ObjectId_of_str i = Some o →
      ub_total_copies payload = None ∧ ub_copies_available payload = None
  | DoDeleteBook i => ObjectId_of_str i ≠ Some o
  | _ => True
  end.

(** ** What the listings are asked for *)

(** The filter of [list_loans]: [query["status"] = status] when a status is
    given. *)
Definition status_asked (status_q : option string) (l : Loan) : Prop :=
  match status_q with
  | None | Some "" => True
  | Some st => status l = st
  end.

Global Instance status_asked_dec status_q l : Decision (status_asked status_q l).
Proof. unfold status_asked. destruct status_q as [[|c st]|]; apply _. Defined.

(** The request carries a pattern that the database refuses. *)
Definition refused (regex : string → option (string → bool))
    (q : option string) : Prop :=
  match q with
  | None | Some "" => False
  | Some pat => regex pat = None
  end.

(** The filter of [list_books]: the pattern, as the database matches it, on
    one of [title], [author], [isbn] or a tag, and the category. *)
Definition book_asked (regex : string → option (string → bool))
    (q category' : option string) (b : Book) : Prop :=
  match q with
  | None | Some "" => True
  | Some pat =>
      ∃ matches, regex pat = Some matches
        ∧ (matches (title b) = true ∨ matches (author b) = true
           ∨ matches (isbn b) = true
           ∨ ∃ tag, tag ∈ tags b ∧ matches tag = true)
  end
  ∧ match category' with
    | None | Some "" => True
    | Some c => category b = Some c
    end.

(** The filter of [list_members]: the pattern on [name], [email] or
    [phone]. *)
Definition member_asked (regex : string → option (string → bool))
    (q : option string) (m : Member) : Prop :=
  match q with
  | None | Some "" => True
  | Some pat =>
      ∃ matches, regex pat = Some matches
        ∧ (matches (name m) = true ∨ matches (email m) = true
           ∨ ∃ p, phone m = Some p ∧ matches p = true)
  end.

(** ** Sample requests to the books and members endpoints *)

Module Desk.

Definition persuasion : CreateBook :=
  mkCreateBook "Persuasion" "Jane Austen" "9780141439686" None None
               3 None ["classic"].
Definition persuasion_nine : CreateBook :=
  mkCreateBook "Persuasion" "Jane Austen" "9780141439686" None None
               3 (Some 9) ["classic"].

(** only [total_copies] is sent *)
Definition no_copies_owned : UpdateBook :=
  mkUpdateBook None None None None None (Some 0) None None.
(** only [category] is sent *)
Definition to_fiction : UpdateBook :=
  mkUpdateBook None None None (Some "fiction") None None None None.

Definition dan : CreateMember :=
  mkCreateMember "Dan" "dan@example.org" None None true.
(** only [is_active = False] is sent *)
Definition deactivate : UpdateMember :=
  mkUpdateMember None None None None (Some false).

(** a matcher to run the listings with: a pattern that opens a group is
    refused, any other pattern matches the strings it is a prefix of *)
Definition prefix_match (pat : string) : option (string → bool) :=
  if String.prefix "(" pat then None else Some (String.prefix pat).

(** a member with a phone number and an address *)
Definition eve : CreateMember :=
  mkCreateMember "Eve" "eve@example.org" (Some "555 0100")
                 (Some "1 Main Street") true.
(** [description] and [tags] are sent *)
Definition describe : UpdateBook :=
  mkUpdateBook None None None None (Some "A desert planet.") None None
               (Some ["classic"; "desert"]).

End Desk.

(* ================================================================== *)
(** * Properties *)

(** ** The monad and the identifiers *)

Arguments ObjectId_of_str : simpl never.
Arguments ObjectId_str : simpl never.
Arguments timedelta_days : simpl never.

Ltac unfold_M :=
  unfold raise_if, ObjectId_new, ObjectId_is_valid, find_one, update_one,
    update_many, delete_one, count_documents, find, create_document, raise,
    mbind, M_bind, mret, M_ret in *.

(** One step of a handler whose guards have been decided. *)
Ltac step_M :=
  cbn [negb orb andb fmap option_fmap option_map docs set_docs
       member book loan db_book db_member db_loan fst snd].

Lemma alter_lookup_insert {A} (f : A → A) (m : gmap ObjectId A) i x :
  m !! i = Some x → alter f i m = <[i := f x]> m.
Proof.
  intros Hi. apply map_eq. intros j.
  destruct (decide (i = j)) as [<-|Hne].
  - by rewrite lookup_alter_eq, lookup_insert_eq, Hi.
  - by rewrite lookup_alter_ne, lookup_insert_ne.
Qed.

Lemma alter_lookup_None {A} (f : A → A) (m : gmap ObjectId A) i :
  m !! i = None → alter f i m = m.
Proof.
  intros Hi. apply map_eq. intros j.
  destruct (decide (i = j)) as [<-|Hne].
  - by rewrite lookup_alter_eq, Hi.
  - by rewrite lookup_alter_ne.
Qed.

Lemma avail_inc delta t b :
  avail (inc_copies_available delta t b) = avail b + delta.
Proof. reflexivity. Qed.

Lemma hex_digit_hex_char d : (d < 16)%N → hex_digit (hex_char d) = Some d.
Proof.
  intros Hd.
  assert (Hcases : d ∈ (N.of_nat <$> seq 0 16)).
  { apply list_elem_of_fmap. exists (N.to_nat d). split; [lia|].
    apply list_elem_of_In, in_seq. lia. }
  simpl in Hcases.
  repeat (apply elem_of_cons in Hcases as [->|Hcases]; [reflexivity|]).
  by apply elem_of_nil in Hcases.
Qed.

Lemma length_to_hex k n acc :
  String.length (to_hex k n acc) = (k + String.length acc)%nat.
Proof.
  revert n acc. induction k as [|k IH]; intros n acc; simpl; [done|].
  rewrite IH. simpl. lia.
Qed.

Lemma from_hex_to_hex k n acc a :
  from_hex (to_hex k n acc) a = from_hex acc (a * 16 ^ N.of_nat k + n mod 16 ^ N.of_nat k)%N.
Proof.
  revert n acc a. induction k as [|k IH]; intros n acc a.
  - simpl. rewrite N.mod_1_r. f_equal. lia.
  - cbn [to_hex]. rewrite IH. cbn [from_hex].
    rewrite hex_digit_hex_char by (apply N.mod_lt; lia).
    f_equal. rewrite Nat2N.inj_succ, N.pow_succ_r'.
    rewrite (N.Div0.mod_mul_r n 16 (16 ^ N.of_nat k)). lia.
Qed.

(** [ObjectId(str(o))] is [o] again (for the 96 bits an identifier has). *)
Lemma ObjectId_of_str_str o :
  ObjectId_of_str (ObjectId_str o) = Some (o mod 2 ^ 96)%N.
Proof.
  unfold ObjectId_of_str, ObjectId_str.
  rewrite length_to_hex. cbn [String.length Nat.add Nat.eqb].
  rewrite from_hex_to_hex. cbn [from_hex]. f_equal.
Qed.

(** ** borrow_book *)

(** The decision table of [borrow_book]: which check answers, in the order
    in which the handler makes them. *)
Lemma borrow_book_table clk payload s :
  match ObjectId_of_str (req_member_id payload),
        ObjectId_of_str (req_book_id payload) with
  | Some mid, Some bid =>
      match db_member s !! mid with
      | None => borrow_book clk payload s = (Raise InvalidMember, s)
      | Some m =>
          if default true (is_active m) then
            match db_book s !! bid with
            | None => borrow_book clk payload s = (Raise BookNotFound, s)
            | Some b =>
                if avail b <=? 0
                then borrow_book clk payload s = (Raise OutOfStock, s)
                else ∃ r, borrow_book clk payload s
                          = (Ok r, borrowed_db clk payload bid s)
            end
          else borrow_book clk payload s = (Raise InvalidMember, s)
      end
  | _, _ =>
      borrow_book clk payload s
      = (Raise (HTTPException 400 "Invalid member or book id"), s)
  end.
Proof.
  unfold borrow_book, avail. unfold_M.
  destruct (ObjectId_of_str (req_member_id payload)) as [mid|];
    [|by destruct (ObjectId_of_str (req_book_id payload))].
  destruct (ObjectId_of_str (req_book_id payload)) as [bid|]; [|done].
  step_M.
  destruct (db_member s !! mid) as [m|]; [|done]. step_M.
  destruct (default true (is_active m)); [|done]. step_M.
  destruct (db_book s !! bid) as [b|]; [|done]. step_M.
  destruct (default 0 (copies_available b) <=? 0); [done|].
  rewrite ObjectId_of_str_str. step_M. eexists. reflexivity.
Qed.

Lemma borrow_book_cases clk payload s :
  (∃ e, borrow_book clk payload s = (Raise e, s))
  ∨ (∃ mid bid m b r,
        ObjectId_of_str (req_member_id payload) = Some mid
        ∧ ObjectId_of_str (req_book_id payload) = Some bid
        ∧ db_member s !! mid = Some m
        ∧ default true (is_active m) = true
        ∧ db_book s !! bid = Some b
        ∧ 0 < avail b
        ∧ borrow_book clk payload s = (Ok r, borrowed_db clk payload bid s)).
Proof.
  pose proof (borrow_book_table clk payload s) as T.
  destruct (ObjectId_of_str (req_member_id payload)) as [mid|]; [|eauto].
  destruct (ObjectId_of_str (req_book_id payload)) as [bid|]; [|eauto].
  destruct (db_member s !! mid) as [m|] eqn:Hmem; [|eauto].
  destruct (default true (is_active m)) eqn:Hact; [|eauto].
  destruct (db_book s !! bid) as [b|] eqn:Hbook; [|eauto].
  destruct (Z.leb_spec (avail b) 0) as [Hle|Hlt]; [eauto|].
  destruct T as [r Hr]. right. exists mid, bid, m, b, r. done.
Qed.

Lemma borrow_book_ok clk payload s mid bid m b :
  ObjectId_of_str (req_member_id payload) = Some mid →
  ObjectId_of_str (req_book_id payload) = Some bid →
  db_member s !! mid = Some m →
  default true (is_active m) = true →
  db_book s !! bid = Some b →
  0 < avail b →
  ∃ r, borrow_book clk payload s = (Ok r, borrowed_db clk payload bid s).
Proof.
  intros Hm Hb Hmem Hact Hbook Hav.
  pose proof (borrow_book_table clk payload s) as T.
  rewrite Hm, Hb, Hmem, Hact, Hbook in T.
  destruct (Z.leb_spec (avail b) 0); [lia|done].
Qed.

(** C10.  A borrow that fails has written nothing: whatever the error
    (malformed identifier, missing or inactive member, missing book, no copy
    available), the database after the request is the database before it, so
    no loan was created and no book was modified. *)
Theorem borrow_book_failure_writes_nothing clk payload s e :
  (borrow_book clk payload s).1 = Raise e →
  (borrow_book clk payload s).2 = s.
Proof.
  intros He.
  destruct (borrow_book_cases clk payload s)
    as [[e' Hr]|(mid & bid & m & b & r & _ & _ & _ & _ & _ & _ & Hr)];
    rewrite Hr in *; [done|discriminate].
Qed.

Lemma borrow_book_failure_writes_nothing_witness :
  (borrow_book Sample.clock Sample.bob_dune Sample.library).1
    = Raise InvalidMember
  ∧ (borrow_book Sample.clock Sample.bob_dune Sample.library).2
    = Sample.library.
Proof.
  split; [vm_compute; reflexivity|].
  apply (borrow_book_failure_writes_nothing _ _ _ InvalidMember).
  vm_compute; reflexivity.
Defined.




Lemma default_true_active (m : Member) :
  default true (is_active m) = true ↔ is_active m ≠ Some false.
Proof. destruct (is_active m) as [[]|]; simpl; split; congruence. Qed.

(** C3.  The failures of a borrow, for a request whose two identifiers are
    well formed, each reported when the checks made before it pass (the
    handler checks the member, then the book, then the stock):
    - the member is missing or has [is_active == false]: InvalidMember;
    - the member passes and the book is missing: BookNotFound;
    - the member passes, the book exists and its [copies_available] is not
      strictly positive: OutOfStock;
    - in particular, when the last available copy has just been borrowed,
      [copies_available] is 0 and a further borrow of that book, by any
      member who may borrow, fails with OutOfStock.
    A failed request leaves the database as it was. *)
Theorem borrow_book_errors clk payload s mid bid :
  ObjectId_of_str (req_member_id payload) = Some mid →
  ObjectId_of_str (req_book_id payload) = Some bid →
  ((db_member s !! mid = None
    ∨ (∃ m, db_member s !! mid = Some m ∧ is_active m = Some false)) →
   borrow_book clk payload s = (Raise InvalidMember, s))
  ∧ (∀ m, db_member s !! mid = Some m → is_active m ≠ Some false →
       (db_book s !! bid = None →
        borrow_book clk payload s = (Raise BookNotFound, s))
       ∧ (∀ b, db_book s !! bid = Some b → ¬ 0 < avail b →
            borrow_book clk payload s = (Raise OutOfStock, s))
       ∧ (∀ b, db_book s !! bid = Some b → avail b = 1 →
            let s' := (borrow_book clk payload s).2 in
            is_ok (borrow_book clk payload s).1 = true
            ∧ (∃ b', db_book s' !! bid = Some b'
                     ∧ copies_available b' = Some 0)
            ∧ ∀ clk' payload' mid' m',
                ObjectId_of_str (req_member_id payload') = Some mid' →
                ObjectId_of_str (req_book_id payload') = Some bid →
                db_member s !! mid' = Some m' →
                is_active m' ≠ Some false →
                borrow_book clk' payload' s' = (Raise OutOfStock, s'))).
Proof.
  intros Hm Hb.
  pose proof (borrow_book_table clk payload s) as T. rewrite Hm, Hb in T.
  split.
  - intros [Hnone|(m & Hmem & Hact)].
    + by rewrite Hnone in T.
    + rewrite Hmem, Hact in T. done.
  - intros m Hmem Hact%default_true_active. rewrite Hmem, Hact in T.
    split_and!.
    + intros Hnone. by rewrite Hnone in T.
    + intros b Hbook Hav. rewrite Hbook in T.
      destruct (Z.leb_spec (avail b) 0); [done|lia].
    + intros b Hbook Hav s'. rewrite Hbook in T.
      destruct (Z.leb_spec (avail b) 0); [lia|]. destruct T as [r Hr].
      subst s'. rewrite Hr. cbn [fst snd is_ok].
      assert (Hb' : db_book (borrowed_db clk payload bid s) !! bid
                    = Some (inc_copies_available (-1) (clk 2%nat) b)).
      { cbn [borrowed_db db_book]. by rewrite lookup_alter_eq, Hbook. }
      split_and!; [done| |].
      * eexists. split; [exact Hb'|].
        cbn [inc_copies_available copies_available].
        unfold avail in Hav. rewrite Hav. done.
      * intros clk' payload' mid' m' Hm' Hbid' Hmem' Hact'%default_true_active.
        pose proof (borrow_book_table clk' payload'
                      (borrowed_db clk payload bid s)) as T'.
        rewrite Hm', Hbid', Hb' in T'.
        cbn [borrowed_db db_member] in T'. rewrite Hmem', Hact' in T'.
        unfold avail in *. cbn [inc_copies_available copies_available] in T'.
        rewrite Hav in T'. exact T'.
Qed.

Lemma borrow_book_errors_witness :
  borrow_book Sample.clock Sample.ann_emma_again Sample.library
  = (Raise OutOfStock, Sample.library).
Proof.
  pose proof (borrow_book_errors Sample.clock Sample.ann_emma_again
                Sample.library 161%N 178%N
                ltac:(vm_compute; reflexivity) ltac:(vm_compute; reflexivity))
    as [_ H].
  destruct (H Sample.ann ltac:(vm_compute; reflexivity) ltac:(discriminate))
    as (_ & Hstock & _).
  apply (Hstock Sample.emma); [vm_compute; reflexivity|vm_compute; discriminate].
Defined.

(** C9.  A member document that has no [is_active] key counts as active:
    the borrow is never refused with InvalidMember on its account, and it
    goes through when the book has a copy available. *)
Theorem borrow_book_missing_is_active clk payload s mid m :
  ObjectId_of_str (req_member_id payload) = Some mid →
  db_member s !! mid = Some m →
  is_active m = None →
  (borrow_book clk payload s).1 ≠ Raise InvalidMember
  ∧ (∀ bid b,
       ObjectId_of_str (req_book_id payload) = Some bid →
       db_book s !! bid = Some b →
       0 < avail b →
       ∃ r, borrow_book clk payload s = (Ok r, borrowed_db clk payload bid s)).
Proof.
  intros Hm Hmem Hact.
  pose proof (borrow_book_table clk payload s) as T. rewrite Hm in T.
  split.
  - destruct (ObjectId_of_str (req_book_id payload)) as [bid|];
      [|by rewrite T].
    rewrite Hmem, Hact in T. cbn [default] in T.
    destruct (db_book s !! bid) as [b|]; [|by rewrite T].
    destruct (avail b <=? 0); [by rewrite T|].
    destruct T as [r ->]. done.
  - intros bid b Hb Hbook Hav.
    eapply borrow_book_ok; try done. by rewrite Hact.
Qed.

Lemma borrow_book_missing_is_active_witness :
  (borrow_book Sample.clock Sample.cyd_dune Sample.library).1
    ≠ Raise InvalidMember
  ∧ is_ok (borrow_book Sample.clock Sample.cyd_dune Sample.library).1 = true.
Proof.
  pose proof (borrow_book_missing_is_active Sample.clock Sample.cyd_dune
                Sample.library 163%N Sample.cyd
                ltac:(vm_compute; reflexivity) ltac:(vm_compute; reflexivity)
                eq_refl) as [H1 H2].
  split; [exact H1|].
  destruct (H2 177%N Sample.dune) as [r Hr];
    [vm_compute; reflexivity..|].
  rewrite Hr. reflexivity.
Defined.

(** ** return_book *)

(** The decision table of [return_book]. *)
Lemma return_book_table clk loan_id s :
  match ObjectId_of_str loan_id with
  | None =>
      return_book clk loan_id s
      = (Raise (HTTPException 400 "Invalid loan id"), s)
  | Some lid =>
      match db_loan s !! lid with
      | None => return_book clk loan_id s = (Raise LoanNotFound, s)
      | Some l =>
          if String.eqb (status l) "returned" then
            return_book clk loan_id s
            = (Ok (Some (mkLoanOut (ObjectId_str lid) l)), s)
          else
            match ObjectId_of_str (book_id l) with
            | None =>
                return_book clk loan_id s
                = (Raise (InvalidId (book_id l)), marked_returned_db clk lid s)
            | Some bid =>
                return_book clk loan_id s
                = (Ok (Some (mkLoanOut (ObjectId_str lid)
                               (set_returned (clk 0%nat) (clk 1%nat) l))),
                   returned_db clk lid bid s)
            end
      end
  end.
Proof.
  unfold return_book. unfold_M.
  destruct (ObjectId_of_str loan_id) as [lid|]; [|done]. step_M.
  destruct (db_loan s !! lid) as [l|] eqn:Hl; [|done]. step_M.
  destruct (String.eqb (status l) "returned"); [done|]. step_M.
  destruct (ObjectId_of_str (book_id l)) as [bid|]; [|done]. step_M.
  rewrite lookup_alter_eq, Hl. done.
Qed.

(** C4.  Returning a loan that is already returned is a no-op: the answer is
    the loan document as it stands and the database is the one before the
    request, so the book's [copies_available] is not raised a second time. *)
Theorem return_book_returned_noop clk loan_id s lid l :
  ObjectId_of_str loan_id = Some lid →
  db_loan s !! lid = Some l →
  status l = "returned" →
  return_book clk loan_id s = (Ok (to_str_id (Some (lid, l))), s)
  ∧ db_loan (return_book clk loan_id s).2 !! lid = Some l
  ∧ ∀ bid, db_book (return_book clk loan_id s).2 !! bid = db_book s !! bid.
Proof.
  intros Hid Hl Hst.
  pose proof (return_book_table clk loan_id s) as T.
  rewrite Hid, Hl, Hst in T. cbn [String.eqb Ascii.eqb Bool.eqb] in T.
  rewrite T. done.
Qed.

Lemma return_book_returned_noop_witness :
  return_book Sample.clock Sample.loan_id' Sample.library
  = (Ok (to_str_id (Some (194%N, Sample.cyd_emma))), Sample.library).
Proof.
  apply (return_book_returned_noop Sample.clock Sample.loan_id'
           Sample.library 194%N Sample.cyd_emma);
    vm_compute; reflexivity.
Defined.

(** Returning twice: when a return succeeds, the same request made again
    gives the same answer and changes nothing. *)
Lemma return_book_twice clk clk' loan_id s :
  is_ok (return_book clk loan_id s).1 = true →
  return_book clk' loan_id (return_book clk loan_id s).2
  = return_book clk loan_id s.
Proof.
  intros Hok.
  pose proof (return_book_table clk loan_id s) as T.
  destruct (ObjectId_of_str loan_id) as [lid|] eqn:Hid;
    [|rewrite T in Hok; discriminate].
  destruct (db_loan s !! lid) as [l|] eqn:Hl;
    [|rewrite T in Hok; discriminate].
  destruct (String.eqb (status l) "returned") eqn:Hst.
  - rewrite T. cbn [snd].
    pose proof (return_book_table clk' loan_id s) as T'.
    by rewrite Hid, Hl, Hst in T'.
  - destruct (ObjectId_of_str (book_id l)) as [bid|];
      [|rewrite T in Hok; discriminate].
    rewrite T. cbn [snd].
    pose proof (return_book_table clk' loan_id (returned_db clk lid bid s)) as T'.
    rewrite Hid in T'. cbn [returned_db db_loan] in T'.
    rewrite lookup_alter_eq, Hl in T'. exact T'.
Qed.

(** C5.  For a well-formed [loan_id]: when no loan has that identifier the
    return fails with NotFound and writes nothing; when the loan is borrowed
    or overdue (and its [book_id] is an identifier), the return succeeds,
    sets the loan's status to "returned" and [returned_at] to the clock
    reading [clk 0], keeps who borrowed what and when, and adds exactly 1 to
    [copies_available] of the loan's book, with no comparison against
    [total_copies]: a book that already had all its copies available ends
    above [total_copies].  No other book, no other loan and no member
    changes. *)
Theorem return_book_effect clk loan_id s lid :
  ObjectId_of_str loan_id = Some lid →
  (db_loan s !! lid = None →
   return_book clk loan_id s = (Raise LoanNotFound, s))
  ∧ (∀ l bid,
       db_loan s !! lid = Some l →
       status l = "borrowed" ∨ status l = "overdue" →
       ObjectId_of_str (book_id l) = Some bid →
       let s' := (return_book clk loan_id s).2 in
       (∃ l',
          (return_book clk loan_id s).1 = Ok (to_str_id (Some (lid, l')))
          ∧ db_loan s' = <[lid := l']> (db_loan s)
          ∧ status l' = "returned"
          ∧ returned_at l' = Some (clk 0%nat)
          ∧ member_id l' = member_id l ∧ book_id l' = book_id l
          ∧ borrowed_at l' = borrowed_at l ∧ due_at l' = due_at l)
       ∧ db_member s' = db_member s
       ∧ (db_book s !! bid = None → db_book s' = db_book s)
       ∧ (∀ b, db_book s !! bid = Some b →
            ∃ b',
              db_book s' = <[bid := b']> (db_book s)
              ∧ copies_available b' = Some (avail b + 1)
              ∧ total_copies b' = total_copies b
              ∧ (total_copies b ≤ avail b → total_copies b' < avail b'))).
Proof.
  intros Hid.
  pose proof (return_book_table clk loan_id s) as T. rewrite Hid in T.
  split.
  - intros Hnone. by rewrite Hnone in T.
  - intros l bid Hl Hst Hbid s'.
    rewrite Hl, Hbid in T.
    assert (String.eqb (status l) "returned" = false) as Hne
      by (destruct Hst as [-> | ->]; reflexivity).
    rewrite Hne in T. subst s'. rewrite T. cbn [fst snd].
    cbn [returned_db db_loan db_book db_member].
    split_and!; [|done| |].
    + exists (set_returned (clk 0%nat) (clk 1%nat) l).
      split_and!; try done. by apply alter_lookup_insert.
    + intros Hnone. by apply alter_lookup_None.
    + intros b Hbook. exists (inc_copies_available 1 (clk 2%nat) b).
      split_and!; [by apply alter_lookup_insert|done|done|].
      rewrite avail_inc. cbn [inc_copies_available total_copies]. lia.
Qed.

Lemma return_book_effect_witness :
  ∃ b',
    db_book (return_book Sample.clock Sample.loan_id Sample.overstocked).2
    = <[177%N := b']> (db_book Sample.overstocked)
    ∧ copies_available b' = Some 2
    ∧ total_copies b' = 1.
Proof.
  pose proof (return_book_effect Sample.clock Sample.loan_id
                Sample.overstocked 193%N ltac:(vm_compute; reflexivity))
    as [_ H].
  destruct (H Sample.ann_has_dune 177%N
              ltac:(vm_compute; reflexivity) (or_introl eq_refl)
              ltac:(vm_compute; reflexivity))
    as (_ & _ & _ & Hb).
  destruct (Hb Sample.dune ltac:(vm_compute; reflexivity))
    as (b' & H1 & H2 & H3 & _).
  exists b'. split_and!; assumption.
Defined.

(** ** list_loans *)

Lemma list_loans_db clk status_q s :
  ∃ out, list_loans clk status_q s = (Ok out, sweep (clk 0%nat) s).
Proof. unfold list_loans. unfold_M. step_M. eexists. reflexivity. Qed.

Lemma is_overdue_spec now l :
  is_overdue now l = true ↔ status l = "borrowed" ∧ due_at l < now.
Proof.
  unfold is_overdue.
  rewrite andb_true_iff, String.eqb_eq, Z.ltb_lt. done.
Qed.

Lemma sweep_lookup now s lid :
  db_loan (sweep now s) !! lid
  = (λ l, if is_overdue now l then set_overdue l else l) <$> db_loan s !! lid.
Proof. cbn [sweep db_loan]. by rewrite lookup_fmap. Qed.

Lemma sweep_idemp now s : sweep now (sweep now s) = sweep now s.
Proof.
  unfold sweep. cbn [db_book db_member db_loan]. f_equal.
  rewrite <- map_fmap_compose. apply map_fmap_ext. intros lid l _.
  cbn [compose]. destruct (is_overdue now l) eqn:Hl; [|by rewrite Hl].
  reflexivity.
Qed.

(** C6.  Listing the loans first sweeps the collection, with [now] the clock
    reading [clk 0]: a loan gets status "overdue" (and nothing else of it
    changes) exactly when its status is "borrowed" and its [due_at] is
    strictly before [now]; every other loan, in particular every returned
    loan whatever its [due_at] and every loan that is already overdue, stays
    as it is, no loan appears or disappears, and books and members are not
    touched.  Listing again at the same clock reading changes nothing, and at
    any clock reading an overdue or returned loan is left alone. *)
Theorem list_loans_sweeps_overdue clk status_q s :
  let now := clk 0%nat in
  let s' := (list_loans clk status_q s).2 in
  is_ok (list_loans clk status_q s).1 = true
  ∧ db_book s' = db_book s
  ∧ db_member s' = db_member s
  ∧ (∀ lid, db_loan s !! lid = None → db_loan s' !! lid = None)
  ∧ (∀ lid l, db_loan s !! lid = Some l →
       (status l = "borrowed" ∧ due_at l < now →
        db_loan s' !! lid
        = Some (mkLoan (member_id l) (book_id l) (borrowed_at l) (due_at l)
                       (returned_at l) "overdue" (loan_updated_at l)))
       ∧ (¬ (status l = "borrowed" ∧ due_at l < now) →
          db_loan s' !! lid = Some l)
       ∧ (status l = "returned" ∨ status l = "overdue" →
          ∀ clk' q', db_loan (list_loans clk' q' s).2 !! lid = Some l))
  ∧ (∀ clk' q', clk' 0%nat = now → (list_loans clk' q' s').2 = s').
Proof.
  intros now s'.
  destruct (list_loans_db clk status_q s) as [out Hout].
  subst s'. rewrite Hout. cbn [fst snd is_ok]. fold now.
  split_and!; try done.
  - intros lid Hnone. by rewrite sweep_lookup, Hnone.
  - intros lid l Hl. split_and!.
    + intros Hov%is_overdue_spec. by rewrite sweep_lookup, Hl; cbn; rewrite Hov.
    + intros Hno. rewrite sweep_lookup, Hl. cbn.
      destruct (is_overdue now l) eqn:Hov; [|done].
      by apply is_overdue_spec in Hov.
    + intros Hst clk' q'.
      destruct (list_loans_db clk' q' s) as [out' ->]. cbn [snd].
      rewrite sweep_lookup, Hl. cbn.
      destruct (is_overdue (clk' 0%nat) l) eqn:Hov; [|done].
      apply is_overdue_spec in Hov as [Hb _]. rewrite Hb in Hst.
      by destruct Hst.
  - intros clk' q' Hclk.
    destruct (list_loans_db clk' q' (sweep now s)) as [out' ->]. cbn [snd].
    rewrite Hclk. apply sweep_idemp.
Qed.

(** ** delete_member *)

Lemma is_active_loan_of_spec member_id' l :
  is_active_loan_of member_id' l = true
  ↔ member_id l = member_id' ∧ (status l = "borrowed" ∨ status l = "overdue").
Proof.
  unfold is_active_loan_of.
  rewrite andb_true_iff, orb_true_iff, !String.eqb_eq. done.
Qed.

Lemma count_documents_where {A} (coll : Collection A) (query : A → bool)
    (P : A → Prop) `{∀ x, Decision (P x)} s :
  (∀ d, query d = true ↔ P d) →
  count_documents coll query s = (Ok (count_where P (docs coll s)), s).
Proof.
  intros HP. unfold count_documents, count_where.
  assert (filter (λ kv : ObjectId * A, query kv.2 = true) (docs coll s)
          = filter (λ kv, P kv.2) (docs coll s)) as ->; [|done].
  apply map_filter_ext. intros i d _. apply HP.
Qed.

(** The decision table of [delete_member]. *)
Lemma delete_member_table member_id' s :
  match ObjectId_of_str member_id' with
  | None =>
      delete_member member_id' s
      = (Raise (HTTPException 400 "Invalid member id"), s)
  | Some mid =>
      if 0 <? count_where
                (λ l, member_id l = member_id'
                      ∧ (status l = "borrowed" ∨ status l = "overdue"))
                (db_loan s)
      then delete_member member_id' s = (Raise HasActiveLoans, s)
      else
        match db_member s !! mid with
        | None => delete_member member_id' s = (Raise MemberNotFound, s)
        | Some _ =>
            delete_member member_id' s
            = (Ok true, mkDB (db_book s) (delete mid (db_member s)) (db_loan s))
        end
  end.
Proof.
  unfold delete_member.
  unfold raise_if, ObjectId_new, ObjectId_is_valid, delete_one, raise,
    mbind, M_bind, mret, M_ret.
  destruct (ObjectId_of_str member_id') as [mid|]; [|done]. step_M.
  rewrite (count_documents_where loan _ _ s (is_active_loan_of_spec member_id')).
  step_M.
  destruct (0 <? _); [done|]. step_M.
  destruct (db_member s !! mid); done.
Qed.

(** The guard of [delete_member], as its query makes it: for an identifier
    that is well formed, the deletion fails with HasActiveLoans exactly when
    the number of loans whose [member_id] is the string of the request and
    whose status is "borrowed" or "overdue" is not zero, and then nothing is
    deleted; when the member exists and every loan that carries that string
    has status "returned", the deletion succeeds and removes the member, and
    nothing else.  Loans that name the same member with another spelling of
    the identifier are not counted. *)
Lemma delete_member_guard member_id' s mid :
  ObjectId_of_str member_id' = Some mid →
  let active :=
    count_where (λ l, member_id l = member_id'
                      ∧ (status l = "borrowed" ∨ status l = "overdue"))
                (db_loan s) in
  ((delete_member member_id' s).1 = Raise HasActiveLoans ↔ active ≠ 0)
  ∧ (active ≠ 0 → (delete_member member_id' s).2 = s)
  ∧ (is_Some (db_member s !! mid) →
     (∀ lid l, db_loan s !! lid = Some l → member_id l = member_id' →
               status l = "returned") →
     delete_member member_id' s
     = (Ok true, mkDB (db_book s) (delete mid (db_member s)) (db_loan s))).
Proof.
  intros Hid active.
  pose proof (delete_member_table member_id' s) as T. rewrite Hid in T.
  fold active in T.
  assert (Hnonneg : 0 ≤ active) by (unfold active, count_where; lia).
  split_and!.
  - destruct (Z.ltb_spec 0 active).
    + rewrite T. split; [lia|done].
    + split; [|lia]. intros Hr.
      destruct (db_member s !! mid); rewrite T in Hr; discriminate.
  - intros Hne. destruct (Z.ltb_spec 0 active); [by rewrite T|lia].
  - intros [m Hm] Hret. rewrite Hm in T.
    assert (active = 0) as H0.
    { unfold active, count_where.
      rewrite map_empty_filter_2; [by rewrite map_size_empty|].
      intros lid l Hl [Hmem Hst]. cbn [snd] in *.
      rewrite (Hret lid l Hl Hmem) in Hst. by destruct Hst. }
    rewrite H0 in T. exact T.
Qed.

Lemma delete_member_guard_witness :
  (delete_member Sample.ann_id Sample.library).1 = Raise HasActiveLoans
  ∧ (delete_member Sample.ann_id Sample.library).2 = Sample.library.
Proof.
  pose proof (delete_member_guard Sample.ann_id Sample.library 161%N
                ltac:(vm_compute; reflexivity)) as (H1 & H2 & _).
  split.
  - apply H1. vm_compute. discriminate.
  - apply H2. vm_compute. discriminate.
Defined.

(** The guard looks for loans that carry the identifier as it is written
    in the request, while the member is found by the identifier it denotes:
    asked with another spelling of Ann's identifier, [delete_member] counts
    no loan and deletes Ann, who still holds "Emma". *)
Example delete_member_compares_spelling :
  let ann_id_upper := "0000000000000000000000A1" in
  ObjectId_of_str ann_id_upper = ObjectId_of_str Sample.ann_id
  ∧ (delete_member Sample.ann_id Sample.library).1 = Raise HasActiveLoans
  ∧ (delete_member ann_id_upper Sample.library).1 = Ok true
  ∧ db_member (delete_member ann_id_upper Sample.library).2 !! 161%N = None.
Proof. vm_compute. split_and!; reflexivity. Qed.

(** C7.  The guard of [delete_member] misses open loans of the member.  The
    comment in the handler says "ensure no active loans", but the loans are
    counted by the string of the request while the member, here and in
    [borrow_book], is found by the ObjectId the string denotes, which any
    mix of upper and lower case digits spells.
    - Ann borrows "Dune" with her identifier written [...A1]: the borrow
      succeeds and stores a "borrowed" loan whose [member_id] denotes Ann.
      Deleting Ann by [...a1] then counts no loan, answers [Ok true] and
      removes her; the loan is still stored as "borrowed".
    - In [Sample.library] Ann holds "Emma" under [...a1]: deleting her by
      [...a1] fails with HasActiveLoans, deleting her by [...A1] succeeds. *)
Theorem delete_member_misses_loans_spelled_otherwise :
  let s1 :=
    (borrow_book Sample.clock Sample.ann_dune_upper Sample.reading_room).2 in
  let s2 := (delete_member Sample.ann_id s1).2 in
  ObjectId_of_str Sample.ann_id_upper = ObjectId_of_str Sample.ann_id
  ∧ (is_ok (borrow_book Sample.clock Sample.ann_dune_upper
              Sample.reading_room).1 = true
     ∧ db_member s1 !! 161%N = Some Sample.ann
     ∧ (∃ lid l, db_loan s1 !! lid = Some l
                 ∧ ObjectId_of_str (member_id l) = Some 161%N
                 ∧ status l = "borrowed")
     ∧ (delete_member Sample.ann_id s1).1 = Ok true
     ∧ db_member s2 !! 161%N = None
     ∧ db_loan s2 = db_loan s1)
  ∧ (db_loan Sample.library !! 193%N = Some Sample.ann_emma
     ∧ ObjectId_of_str (member_id Sample.ann_emma) = Some 161%N
     ∧ status Sample.ann_emma = "borrowed"
     ∧ (delete_member Sample.ann_id Sample.library).1 = Raise HasActiveLoans
     ∧ (delete_member Sample.ann_id_upper Sample.library).1 = Ok true
     ∧ db_member (delete_member Sample.ann_id_upper Sample.library).2
         !! 161%N = None
     ∧ db_loan (delete_member Sample.ann_id_upper Sample.library).2
       = db_loan Sample.library).
Proof.
  intros s1 s2. split_and!; try (vm_compute; reflexivity).
  exists (fresh (dom (db_loan Sample.reading_room))),
    (new_loan Sample.clock Sample.ann_dune_upper).
  split_and!; vm_compute; reflexivity.
Qed.

(** Ann cannot be deleted while she holds "Emma"; once she has returned it
    she can. *)
Example delete_member_after_return :
  (delete_member Sample.ann_id Sample.library).1 = Raise HasActiveLoans
  ∧ (delete_member Sample.ann_id
       (return_book Sample.clock Sample.loan_id Sample.library).2).1
    = Ok true.
Proof. split; vm_compute; reflexivity. Qed.

(** ** stats *)

Lemma count_documents_all {A} (coll : Collection A) s :
  count_documents coll (λ _, true) s = (Ok (Z.of_nat (size (docs coll s))), s).
Proof.
  unfold count_documents. by rewrite map_filter_id.
Qed.

Lemma sum_over_foldr {A} (f : A → Z) (m : gmap ObjectId A) :
  sum_over f m = foldr (λ kv acc, f kv.2 + acc) 0 (map_to_list m).
Proof.
  unfold sum_over. rewrite map_fold_foldr.
  induction (map_to_list m) as [|[i d] l IH]; [done|].
  cbn [foldr uncurry snd]. by rewrite IH.
Qed.

Lemma aggregate_copies_sums s :
  ∃ rows,
    aggregate_copies s = (Ok rows, s)
    ∧ match rows with r :: _ => r.1 | [] => 0 end
      = sum_over total_copies (db_book s)
    ∧ match rows with r :: _ => r.2 | [] => 0 end
      = sum_over avail (db_book s).
Proof.
  unfold aggregate_copies. rewrite !sum_over_foldr. unfold avail.
  destruct (map_to_list (db_book s)) as [|kv l]; eexists; split_and!; done.
Qed.

(** C8.  The statistics are read off the database and change nothing in it:
    the database after the request is the database before (so no loan
    changes status: no sweep runs), and the answer holds the number of books,
    the sum of their [total_copies], the sum of their [copies_available]
    (both 0 when there is no book), the number of members, the number of
    loans with status "borrowed" or "overdue" and the number of loans with
    status "overdue". *)
Theorem stats_reads_only s :
  ∃ r,
    stats s = (Ok r, s)
    ∧ books r = Z.of_nat (size (db_book s))
    ∧ copies r = sum_over total_copies (db_book s)
    ∧ available r = sum_over avail (db_book s)
    ∧ (db_book s = ∅ → copies r = 0 ∧ available r = 0)
    ∧ members r = Z.of_nat (size (db_member s))
    ∧ active_loans r
      = count_where (λ l, status l = "borrowed" ∨ status l = "overdue")
                    (db_loan s)
    ∧ overdue r = count_where (λ l, status l = "overdue") (db_loan s).
Proof.
  destruct (aggregate_copies_sums s) as (rows & Hrows & Htot & Hav).
  unfold stats, mbind, M_bind, mret, M_ret.
  rewrite (count_documents_all book), Hrows, (count_documents_all member).
  rewrite (count_documents_where loan _
             (λ l, status l = "borrowed" ∨ status l = "overdue") s).
  2:{ intros l. by rewrite orb_true_iff, !String.eqb_eq. }
  rewrite (count_documents_where loan _ (λ l, status l = "overdue") s).
  2:{ intros l. by rewrite String.eqb_eq. }
  eexists. split; [reflexivity|].
  cbn [books copies available members active_loans overdue docs book member loan].
  split_and!; try done.
  intros Hempty. rewrite Htot, Hav, Hempty. unfold sum_over.
  by rewrite !map_fold_empty.
Qed.

(** The statistics count what is stored: a loan that is past due and not
    yet swept is counted as active but not as overdue, until the loans are
    listed. *)
Example stats_before_and_after_listing :
  let late (i : nat) := Sample.clock 100 in
  overdue <$> (match (stats Sample.library).1 with
               | Ok r => Some r | Raise _ => None end) = Some 0
  ∧ overdue <$> (match (stats (list_loans late None Sample.library).2).1 with
                 | Ok r => Some r | Raise _ => None end) = Some 1.
Proof. split; vm_compute; reflexivity. Qed.

(** ** Borrow and return sequences *)

Lemma count_where_nonneg {A} (P : A → Prop) `{∀ x, Decision (P x)}
    (m : gmap ObjectId A) :
  0 ≤ count_where P m.
Proof. unfold count_where. lia. Qed.

Lemma count_where_insert_fresh {A} (P : A → Prop) `{∀ x, Decision (P x)}
    (m : gmap ObjectId A) i x :
  m !! i = None →
  count_where P (<[i := x]> m)
  = count_where P m + (if decide (P x) then 1 else 0).
Proof.
  intros Hi. unfold count_where. rewrite map_filter_insert. cbn [snd].
  destruct (decide (P x)).
  - rewrite map_size_insert_None; [lia|].
    apply map_lookup_filter_None. by left.
  - rewrite delete_id by done. lia.
Qed.

Lemma count_where_alter {A} (P : A → Prop) `{∀ x, Decision (P x)}
    (f : A → A) (m : gmap ObjectId A) i x :
  m !! i = Some x →
  count_where P (alter f i m)
  = count_where P m - (if decide (P x) then 1 else 0)
    + (if decide (P (f x)) then 1 else 0).
Proof.
  intros Hi. rewrite (alter_lookup_insert f m i x Hi).
  rewrite <- (insert_delete_eq m i (f x)).
  rewrite <- (insert_id m i x Hi) at 2.
  rewrite <- (insert_delete_eq m i x).
  rewrite !count_where_insert_fresh by apply lookup_delete_eq. lia.
Qed.

Lemma borrow_book_accounted clk payload s o :
  accounted s o → accounted (borrow_book clk payload s).2 o.
Proof.
  intros (bo & Hbo & Hnn & Hacc).
  destruct (borrow_book_cases clk payload s)
    as [[e ->]|(mid & bid & m & b & r & _ & Hbid & _ & _ & Hbook & Hav & ->)];
    cbn [snd]; [by exists bo|].
  unfold accounted, lent_out. cbn [borrowed_db db_book db_loan].
  rewrite count_where_insert_fresh by apply not_elem_of_dom, is_fresh.
  unfold lent_out in Hacc.
  destruct (decide (bid = o)) as [->|Hne].
  - rewrite Hbo in Hbook. injection Hbook as ->.
    exists (inc_copies_available (-1) (clk 2%nat) b).
    rewrite lookup_alter_eq, Hbo, avail_inc.
    split_and!; [done|lia|]. case_decide; cbn [total_copies inc_copies_available]; lia.
  - exists bo. rewrite lookup_alter_ne by done.
    split_and!; [done..|].
    rewrite decide_False; [lia|].
    intros [Hp _]. cbn [new_loan book_id] in Hp. congruence.
Qed.

Lemma return_book_accounted clk loan_id s o :
  accounted s o → accounted (return_book clk loan_id s).2 o.
Proof.
  intros (bo & Hbo & Hnn & Hacc).
  pose proof (return_book_table clk loan_id s) as T.
  destruct (ObjectId_of_str loan_id) as [lid|]; [|by rewrite T; exists bo].
  destruct (db_loan s !! lid) as [l|] eqn:Hl; [|by rewrite T; exists bo].
  destruct (String.eqb (status l) "returned") eqn:Hst;
    [by rewrite T; exists bo|].
  apply String.eqb_neq in Hst.
  assert (Hret : ∀ o', ¬ out_for o' (set_returned (clk 0%nat) (clk 1%nat) l))
    by (by intros o' [_ Hs]).
  unfold lent_out in Hacc.
  destruct (ObjectId_of_str (book_id l)) as [bid|] eqn:Hbid; rewrite T;
    cbn [snd]; unfold accounted, lent_out.
  - cbn [returned_db db_book db_loan].
    rewrite (count_where_alter _ _ _ _ _ Hl).
    rewrite (decide_False _ _ (Hret o)).
    destruct (decide (bid = o)) as [->|Hne].
    + exists (inc_copies_available 1 (clk 2%nat) bo).
      rewrite lookup_alter_eq, Hbo, avail_inc.
      rewrite decide_True by done.
      split_and!; [done|lia|]. cbn [total_copies inc_copies_available]. lia.
    + exists bo. rewrite lookup_alter_ne by done.
      rewrite decide_False; [split_and!; [done|done|lia]|].
      intros [Hp _]. congruence.
  - cbn [marked_returned_db db_book db_loan].
    rewrite (count_where_alter _ _ _ _ _ Hl).
    rewrite (decide_False _ _ (Hret o)).
    exists bo. rewrite decide_False; [split_and!; [done|done|lia]|].
    intros [Hp _]. congruence.
Qed.

Lemma run_accounted rs s o : accounted s o → accounted (run rs s) o.
Proof.
  revert s. induction rs as [|r rs IH]; intros s Hs; [done|].
  cbn [run]. apply IH. destruct r as [clk payload|clk loan_id].
  - by apply borrow_book_accounted.
  - by apply return_book_accounted.
Qed.

(** C1, as the handlers have it.  [return_book] adds 1 to
    [copies_available] without looking at [total_copies], so the bound on the
    book alone is not kept; with the open loans counted it is.  If the copies
    of a book are accounted for ([0 ≤ copies_available] and
    [copies_available] plus the number of its loans not yet returned is at
    most [total_copies]), then after any sequence of borrow and return
    requests, whether they succeed or fail, they are still accounted for, and
    [0 ≤ copies_available ≤ total_copies] holds. *)
Theorem borrow_return_keep_accounted_bounds rs s o :
  accounted s o →
  accounted (run rs s) o ∧ in_bounds (run rs s) o.
Proof.
  intros Hs. pose proof (run_accounted rs s o Hs) as Hacc.
  split; [done|].
  destruct Hacc as (b & Hb & Hnn & Hle). exists b. split; [done|].
  pose proof (count_where_nonneg (out_for o) (db_loan (run rs s))).
  unfold lent_out in Hle. lia.
Qed.

Lemma borrow_return_keep_accounted_bounds_witness :
  accounted Sample.library 178%N
  ∧ in_bounds (run [Return Sample.clock Sample.loan_id;
                    Borrow Sample.clock Sample.ann_emma_again;
                    Borrow Sample.clock Sample.ann_emma_again]
                   Sample.library) 178%N.
Proof.
  assert (H : accounted Sample.library 178%N).
  { exists Sample.emma. split_and!.
    - vm_compute; reflexivity.
    - vm_compute; discriminate.
    - vm_compute; discriminate. }
  split; [exact H|].
  apply (borrow_return_keep_accounted_bounds _ Sample.library 178%N H).
Defined.

(** C1, as stated, fails: in [Sample.overstocked] the only copy of "Dune" is
    available ([0 ≤ 1 ≤ 1]) while a loan of "Dune" is open; returning that
    loan succeeds and leaves [copies_available = 2 > 1 = total_copies]. *)
Lemma book_bounds_not_kept_by_return :
  in_bounds Sample.overstocked 177%N
  ∧ all_ok [Return Sample.clock Sample.loan_id] Sample.overstocked = true
  ∧ ¬ in_bounds (run [Return Sample.clock Sample.loan_id] Sample.overstocked)
                177%N.
Proof.
  split_and!.
  - exists Sample.dune. split_and!;
      [vm_compute; reflexivity|vm_compute; discriminate..].
  - vm_compute; reflexivity.
  - intros (b & Hb & _ & Hle). vm_compute in Hb. injection Hb as <-.
    vm_compute in Hle. by apply Hle.
Qed.

(** The lower bound needs no accounting: [borrow_book] refuses a book
    without an available copy and [return_book] only adds. *)
Lemma run_keeps_stock_nonneg rs s o :
  (∃ b, db_book s !! o = Some b ∧ 0 ≤ avail b) →
  ∃ b, db_book (run rs s) !! o = Some b ∧ 0 ≤ avail b.
Proof.
  revert s. induction rs as [|r rs IH]; intros s Hs; [done|].
  cbn [run]. apply IH. destruct Hs as (bo & Hbo & Hnn).
  destruct r as [clk payload|clk loan_id]; cbn [handle].
  - destruct (borrow_book_cases clk payload s)
      as [[e ->]|(mid & bid & m & b & r & _ & _ & _ & _ & Hbook & Hav & ->)];
      cbn [snd borrowed_db db_book]; [by exists bo|].
    destruct (decide (bid = o)) as [->|Hne].
    + rewrite lookup_alter_eq, Hbook. eexists. split; [done|].
      rewrite avail_inc. lia.
    + rewrite lookup_alter_ne by done. by exists bo.
  - pose proof (return_book_table clk loan_id s) as T.
    destruct (ObjectId_of_str loan_id) as [lid|]; [|by rewrite T; exists bo].
    destruct (db_loan s !! lid) as [l|]; [|by rewrite T; exists bo].
    destruct (String.eqb (status l) "returned"); [by rewrite T; exists bo|].
    destruct (ObjectId_of_str (book_id l)) as [bid|]; rewrite T;
      cbn [snd returned_db marked_returned_db db_book]; [|by exists bo].
    destruct (decide (bid = o)) as [->|Hne].
    + rewrite lookup_alter_eq, Hbo. eexists. split; [done|].
      rewrite avail_inc. lia.
    + rewrite lookup_alter_ne by done. by exists bo.
Qed.

(** The scenario of the specification: a book with 2 copies, both
    available; two borrows leave 0 available and two loans "borrowed"; a
    third borrow fails with OutOfStock; one return leaves 1 available and
    that loan "returned"; the statistics then show copies = 2,
    available = 1, active_loans = 1. *)
Example two_copies_scenario :
  let persuasion :=
    mkBook "Persuasion" "Jane Austen" "9780141439686" None None
           2 (Some 2) [] None in
  let s0 := mkDB {[ 177%N := persuasion ]} {[ 161%N := Sample.ann ]} ∅ in
  let req := mkBorrowRequest Sample.ann_id Sample.dune_id 14 in
  let s2 := run [Borrow Sample.clock req; Borrow Sample.clock req] s0 in
  let s3 := run [Return Sample.clock "000000000000000000000000"] s2 in
  (copies_available <$> db_book s2 !! 177%N) = Some (Some 0)
  ∧ (status <$> db_loan s2 !! 0%N) = Some "borrowed"
  ∧ (status <$> db_loan s2 !! 1%N) = Some "borrowed"
  ∧ borrow_book Sample.clock req s2 = (Raise OutOfStock, s2)
  ∧ (copies_available <$> db_book s3 !! 177%N) = Some (Some 1)
  ∧ (status <$> db_loan s3 !! 0%N) = Some "returned"
  ∧ (stats s3).1
    = Ok (mkStats 1 2 1 1 1 0).
Proof. vm_compute. split_and!; reflexivity. Qed.

(* ================================================================== *)
(** * The other endpoints *)

Ltac unfold_M' := unfold update_one_matched in *; unfold_M.

Lemma DB_eta s : mkDB (db_book s) (db_member s) (db_loan s) = s.
Proof. by destruct s. Qed.

(** ** create_book *)

(** The database after [create_book] has stored [bk]. *)
Lemma create_book_table payload s :
  let a := default (cb_total_copies payload) (cb_copies_available payload) in
  if (0 <=? cb_total_copies payload) && (0 <=? a) then
    ∃ r,
      create_book payload s
      = (Passed (Ok r),
         mkDB (<[fresh (dom (db_book s)) :=
                  mkBook (cb_title payload) (cb_author payload)
                         (cb_isbn payload) (cb_category payload)
                         (cb_description payload) (cb_total_copies payload)
                         (Some a) (cb_tags payload) None]> (db_book s))
              (db_member s) (db_loan s))
  else create_book payload s = (ValidationError, s).
Proof.
  intros a. unfold create_book, BookSchema.
  replace (match cb_copies_available payload with
           | Some a0 => a0 | None => cb_total_copies payload end) with a
    by (unfold a; by destruct (cb_copies_available payload)).
  destruct ((0 <=? cb_total_copies payload) && (0 <=? a)); [|done].
  unfold_M. step_M. rewrite ObjectId_of_str_str. step_M.
  eexists. reflexivity.
Qed.

(** X1.  A book created without [copies_available] gets all its copies
    available: the request is accepted, exactly one book is added, under an
    identifier that was free, with [copies_available = total_copies], so the
    new book is within its bounds; the books that were there, the members and
    the loans are as before. *)
Theorem create_book_defaults_copies payload s :
  CreateBook_valid payload →
  cb_copies_available payload = None →
  ∃ r oid bk,
    create_book payload s
    = (Passed (Ok r), mkDB (<[oid := bk]> (db_book s)) (db_member s) (db_loan s))
    ∧ db_book s !! oid = None
    ∧ title bk = cb_title payload
    ∧ total_copies bk = cb_total_copies payload
    ∧ copies_available bk = Some (cb_total_copies payload)
    ∧ in_bounds (create_book payload s).2 oid.
Proof.
  intros Hv Hnone. pose proof (create_book_table payload s) as T.
  rewrite Hnone in T. cbn in T.
  unfold CreateBook_valid in Hv. apply Z.leb_le in Hv. rewrite Hv in T.
  cbn in T. destruct T as [r Hr].
  eexists r, (fresh (dom (db_book s))), _. rewrite Hr.
  split_and!; try done.
  - apply not_elem_of_dom, is_fresh.
  - eexists. cbn [snd db_book]. rewrite lookup_insert_eq. split; [done|].
    unfold avail. cbn. apply Z.leb_le in Hv. lia.
Qed.

(** X2.  A book created with an explicit [copies_available]: a negative
    value is refused by the schema, inside the handler, before anything is
    written; any other value is stored as sent, with no comparison against
    [total_copies] (a book may start with more copies available than
    owned). *)
Theorem create_book_explicit_copies payload s a :
  CreateBook_valid payload →
  cb_copies_available payload = Some a →
  (a < 0 → create_book payload s = (ValidationError, s))
  ∧ (0 ≤ a →
     ∃ r oid bk,
       create_book payload s
       = (Passed (Ok r),
          mkDB (<[oid := bk]> (db_book s)) (db_member s) (db_loan s))
       ∧ db_book s !! oid = None
       ∧ total_copies bk = cb_total_copies payload
       ∧ copies_available bk = Some a).
Proof.
  intros Hv Ha. pose proof (create_book_table payload s) as T.
  rewrite Ha in T. cbn in T.
  unfold CreateBook_valid in Hv. apply Z.leb_le in Hv. rewrite Hv in T.
  cbn in T. split.
  - intros Hneg. destruct (Z.leb_spec 0 a); [lia|done].
  - intros Hpos. destruct (Z.leb_spec 0 a); [|lia]. destruct T as [r Hr].
    eexists r, (fresh (dom (db_book s))), _. rewrite Hr.
    split_and!; try done. apply not_elem_of_dom, is_fresh.
Qed.

Lemma create_book_defaults_copies_witness :
  ∃ r oid bk,
    create_book Desk.persuasion Sample.library
    = (Passed (Ok r),
       mkDB (<[oid := bk]> (db_book Sample.library))
            (db_member Sample.library) (db_loan Sample.library))
    ∧ copies_available bk = Some 3.
Proof.
  destruct (create_book_defaults_copies Desk.persuasion Sample.library)
    as (r & oid & bk & H1 & _ & _ & _ & H5 & _).
  - vm_compute. discriminate.
  - reflexivity.
  - exists r, oid, bk. split; [exact H1|exact H5].
Defined.

Lemma create_book_explicit_copies_witness :
  ∃ r oid bk,
    create_book Desk.persuasion_nine Sample.library
    = (Passed (Ok r),
       mkDB (<[oid := bk]> (db_book Sample.library))
            (db_member Sample.library) (db_loan Sample.library))
    ∧ total_copies bk = 3 ∧ copies_available bk = Some 9.
Proof.
  destruct (create_book_explicit_copies Desk.persuasion_nine Sample.library 9)
    as [_ H].
  - vm_compute. discriminate.
  - reflexivity.
  - destruct H as (r & oid & bk & H1 & _ & H3 & H4); [vm_compute; discriminate|].
    exists r, oid, bk. split_and!; assumption.
Defined.

(** ** update_book and delete_book *)

(** The decision table of [update_book]. *)
Lemma update_book_table clk book_id' payload s :
  match ObjectId_of_str book_id' with
  | None =>
      update_book clk book_id' payload s
      = (Raise (HTTPException 400 "Invalid book id"), s)
  | Some oid =>
      if UpdateBook_empty payload then
        update_book clk book_id' payload s
        = (Raise (HTTPException 400 "No fields to update"), s)
      else
        match db_book s !! oid with
        | None => update_book clk book_id' payload s = (Raise BookNotFound, s)
        | Some b =>
            update_book clk book_id' payload s
            = (Ok (Some (mkOut (ObjectId_str oid)
                           (set_book payload (clk 0%nat) b))),
               mkDB (<[oid := set_book payload (clk 0%nat) b]> (db_book s))
                    (db_member s) (db_loan s))
        end
  end.
Proof.
  unfold update_book. unfold_M'.
  destruct (ObjectId_of_str book_id') as [oid|]; [|done]. step_M.
  destruct (UpdateBook_empty payload); [done|]. step_M.
  destruct (db_book s !! oid) as [b|] eqn:Hb; simpl (_ =? _); step_M.
  - rewrite lookup_alter_eq, Hb. cbn [fmap option_fmap option_map].
    by rewrite (alter_lookup_insert _ _ _ _ Hb).
  - by rewrite (alter_lookup_None _ _ _ Hb), DB_eta.
Qed.

(** The decision table of [delete_book]. *)
Lemma delete_book_table book_id' s :
  match ObjectId_of_str book_id' with
  | None =>
      delete_book book_id' s = (Raise (HTTPException 400 "Invalid book id"), s)
  | Some oid =>
      match db_book s !! oid with
      | None => delete_book book_id' s = (Raise BookNotFound, s)
      | Some _ =>
          delete_book book_id' s
          = (Ok true, mkDB (delete oid (db_book s)) (db_member s) (db_loan s))
      end
  end.
Proof.
  unfold delete_book. unfold_M.
  destruct (ObjectId_of_str book_id') as [oid|]; [|done]. step_M.
  destruct (db_book s !! oid); done.
Qed.

(** X3.  An update of a book that fails has written nothing.  The
    identifier is checked first, then that the request carries a field, then
    that the book exists: a malformed identifier and a request without
    fields give a 400, an unknown book a 404. *)
Theorem update_book_failure_writes_nothing clk book_id' payload s :
  (∀ e, (update_book clk book_id' payload s).1 = Raise e →
        (update_book clk book_id' payload s).2 = s)
  ∧ (ObjectId_of_str book_id' = None →
     (update_book clk book_id' payload s).1
     = Raise (HTTPException 400 "Invalid book id"))
  ∧ (is_Some (ObjectId_of_str book_id') → UpdateBook_empty payload = true →
     (update_book clk book_id' payload s).1
     = Raise (HTTPException 400 "No fields to update"))
  ∧ (∀ oid, ObjectId_of_str book_id' = Some oid →
            UpdateBook_empty payload = false → db_book s !! oid = None →
            (update_book clk book_id' payload s).1 = Raise BookNotFound).
Proof.
  pose proof (update_book_table clk book_id' payload s) as T.
  split_and!.
  - intros e He.
    destruct (ObjectId_of_str book_id') as [oid|]; [|by rewrite T].
    destruct (UpdateBook_empty payload); [by rewrite T|].
    destruct (db_book s !! oid); rewrite T in *; [discriminate|done].
  - intros Hid. rewrite Hid in T. by rewrite T.
  - intros [oid Hid] He. rewrite Hid, He in T. by rewrite T.
  - intros oid Hid He Hb. rewrite Hid, He, Hb in T. by rewrite T.
Qed.

(** X4.  An update of an existing book, by a request that passed the
    validation of its model and whose integers the database can hold,
    replaces each of the eight fields that the request carries by what was
    sent, keeps each field that the request does not carry, stamps
    [updated_at] and touches no other document.  [total_copies] and
    [copies_available] are each set to what was sent, without looking at the
    other or at the open loans: the request can leave the book with more
    copies available than owned. *)
Theorem update_book_effect clk book_id' payload s oid b :
  ObjectId_of_str book_id' = Some oid →
  UpdateBook_valid payload →
  UpdateBook_encodable payload →
  UpdateBook_empty payload = false →
  db_book s !! oid = Some b →
  ∃ b',
    update_book clk book_id' payload s
    = (Ok (Some (mkOut (ObjectId_str oid) b')),
       mkDB (<[oid := b']> (db_book s)) (db_member s) (db_loan s))
    ∧ title b' = default (title b) (ub_title payload)
    ∧ author b' = default (author b) (ub_author payload)
    ∧ isbn b' = default (isbn b) (ub_isbn payload)
    ∧ tags b' = default (tags b) (ub_tags payload)
    ∧ total_copies b' = default (total_copies b) (ub_total_copies payload)
    ∧ (∀ a, ub_copies_available payload = Some a → copies_available b' = Some a)
    ∧ (ub_copies_available payload = None →
       copies_available b' = copies_available b)
    ∧ (∀ c, ub_category payload = Some c → category b' = Some c)
    ∧ (ub_category payload = None → category b' = category b)
    ∧ (∀ d, ub_description payload = Some d → description b' = Some d)
    ∧ (ub_description payload = None → description b' = description b)
    ∧ book_updated_at b' = Some (clk 0%nat)
    ∧ (∀ n, ub_total_copies payload = Some n →
            ub_copies_available payload = None →
            n < avail b → ¬ in_bounds (update_book clk book_id' payload s).2 oid).
Proof.
  intros Hid _ _ He Hb.
  pose proof (update_book_table clk book_id' payload s) as T.
  rewrite Hid, He, Hb in T. exists (set_book payload (clk 0%nat) b).
  rewrite T. cbn [set_book title author isbn tags total_copies
                  copies_available category description book_updated_at snd].
  split_and!; try done.
  - by intros a ->.
  - by intros ->.
  - by intros c ->.
  - by intros ->.
  - by intros d ->.
  - by intros ->.
  - intros n Hn Hnone Hlt (b' & Hb' & _ & Hle).
    cbn [db_book] in Hb'. rewrite lookup_insert_eq in Hb'.
    injection Hb' as <-. unfold avail in *.
    cbn [set_book total_copies copies_available] in Hle.
    rewrite Hn, Hnone in Hle. cbn in Hle. lia.
Qed.

Lemma update_book_effect_witness :
  (∃ b', db_book (update_book Sample.clock Sample.dune_id Desk.describe
                    Sample.library).2 !! 177%N = Some b'
         ∧ description b' = Some "A desert planet."
         ∧ tags b' = ["classic"; "desert"]
         ∧ title b' = "Dune" ∧ total_copies b' = 1
         ∧ copies_available b' = Some 1 ∧ category b' = Some "sf")
  ∧ ¬ in_bounds (update_book Sample.clock Sample.dune_id Desk.no_copies_owned
                   Sample.library).2 177%N.
Proof.
  split.
  - destruct (update_book_effect Sample.clock Sample.dune_id
                Desk.describe Sample.library 177%N Sample.dune
                ltac:(vm_compute; reflexivity)
                ltac:(split; intros n H; discriminate H)
                ltac:(split; intros n H; discriminate H)
                eq_refl ltac:(vm_compute; reflexivity))
      as (b' & E & Ht & _ & _ & Htags & Htot & _ & Hca & _ & Hcat & Hd & _).
    exists b'. rewrite E. cbn [snd db_book]. rewrite lookup_insert_eq.
    split; [reflexivity|]. split; [exact (Hd _ eq_refl)|].
    split; [exact Htags|]. split; [exact Ht|]. split; [exact Htot|].
    split; [exact (Hca eq_refl)|exact (Hcat eq_refl)].
  - destruct (update_book_effect Sample.clock Sample.dune_id
                Desk.no_copies_owned Sample.library 177%N Sample.dune
                ltac:(vm_compute; reflexivity)
                ltac:(split; intros n H; [injection H as <-; vm_compute;
                                          discriminate|discriminate H])
                ltac:(split; intros n H; [injection H as <-; vm_compute;
                                          reflexivity|discriminate H])
                eq_refl ltac:(vm_compute; reflexivity))
      as (b' & _ & _ & _ & _ & _ & _ & _ & _ & _ & _ & _ & _ & _ & H).
    apply (H 0); [reflexivity..|vm_compute; reflexivity].
Defined.

(** X5.  Deleting a book looks at the books only.  With a well-formed
    identifier it fails with a 404, writing nothing, when the book is not
    there; otherwise it removes that book and nothing else: the loans of the
    book, open ones included, stay as they are.  Afterwards a borrow of the
    book fails with BookNotFound, and the return of one of its open loans
    still succeeds and marks the loan returned, with no book changed. *)
Theorem delete_book_leaves_loans book_id' s oid :
  ObjectId_of_str book_id' = Some oid →
  (db_book s !! oid = None → delete_book book_id' s = (Raise BookNotFound, s))
  ∧ (is_Some (db_book s !! oid) →
     let s' := (delete_book book_id' s).2 in
     (delete_book book_id' s).1 = Ok true
     ∧ db_book s' = delete oid (db_book s)
     ∧ db_member s' = db_member s
     ∧ db_loan s' = db_loan s
     ∧ lent_out s' oid = lent_out s oid
     ∧ (∀ clk payload mid m,
          ObjectId_of_str (req_member_id payload) = Some mid →
          ObjectId_of_str (req_book_id payload) = Some oid →
          db_member s !! mid = Some m → is_active m ≠ Some false →
          borrow_book clk payload s' = (Raise BookNotFound, s'))
     ∧ (∀ clk loan_id lid l,
          ObjectId_of_str loan_id = Some lid →
          db_loan s !! lid = Some l →
          status l ≠ "returned" →
          ObjectId_of_str (book_id l) = Some oid →
          let s'' := (return_book clk loan_id s').2 in
          is_ok (return_book clk loan_id s').1 = true
          ∧ db_book s'' = db_book s'
          ∧ (status <$> db_loan s'' !! lid) = Some "returned")).
Proof.
  intros Hid. pose proof (delete_book_table book_id' s) as T.
  rewrite Hid in T. split.
  - intros Hnone. by rewrite Hnone in T.
  - intros [b Hb] s'. rewrite Hb in T. subst s'. rewrite T.
    cbn [fst snd db_book db_member db_loan].
    split_and!; try done; try (by unfold lent_out).
    + intros clk payload mid m Hm Hbid Hmem Hact%default_true_active.
      pose proof (borrow_book_table clk payload
                    (mkDB (delete oid (db_book s)) (db_member s) (db_loan s)))
        as T'.
      rewrite Hm, Hbid in T'. cbn [db_member db_book] in T'.
      by rewrite Hmem, Hact, lookup_delete_eq in T'.
    + intros clk loan_id lid l Hlid Hl Hst Hbook.
      pose proof (return_book_table clk loan_id
                    (mkDB (delete oid (db_book s)) (db_member s) (db_loan s)))
        as T'.
      rewrite Hlid in T'. cbn [db_loan] in T'. rewrite Hl, Hbook in T'.
      apply String.eqb_neq in Hst. rewrite Hst in T'.
      rewrite T'. cbn [fst snd is_ok returned_db db_book db_loan].
      split_and!; [done| |].
      * apply alter_lookup_None, lookup_delete_eq.
      * by rewrite lookup_alter_eq, Hl.
Qed.

Lemma delete_book_leaves_loans_witness :
  (delete_book Sample.emma_id Sample.library).1 = Ok true
  ∧ lent_out (delete_book Sample.emma_id Sample.library).2 178%N = 1.
Proof.
  destruct (delete_book_leaves_loans Sample.emma_id Sample.library 178%N
              ltac:(vm_compute; reflexivity)) as [_ H].
  destruct H as (H1 & _ & _ & _ & H5 & _).
  - exists Sample.emma. vm_compute; reflexivity.
  - split; [exact H1|]. rewrite H5. vm_compute; reflexivity.
Defined.

(** ** Members *)

Lemma create_member_table payload s :
  ∃ r,
    create_member payload s
    = (Ok r,
       mkDB (db_book s)
            (<[fresh (dom (db_member s)) :=
                 mkMember (cm_name payload) (cm_email payload)
                          (cm_phone payload) (cm_address payload)
                          (Some (cm_is_active payload)) None]> (db_member s))
            (db_loan s)).
Proof.
  unfold create_member. unfold_M. step_M.
  rewrite ObjectId_of_str_str. step_M. eexists. reflexivity.
Qed.

Lemma update_member_table clk member_id' payload s :
  match ObjectId_of_str member_id' with
  | None =>
      update_member clk member_id' payload s
      = (Raise (HTTPException 400 "Invalid member id"), s)
  | Some oid =>
      if UpdateMember_empty payload then
        update_member clk member_id' payload s
        = (Raise (HTTPException 400 "No fields to update"), s)
      else
        match db_member s !! oid with
        | None =>
            update_member clk member_id' payload s = (Raise MemberNotFound, s)
        | Some m =>
            update_member clk member_id' payload s
            = (Ok (Some (mkOut (ObjectId_str oid)
                           (set_member payload (clk 0%nat) m))),
               mkDB (db_book s)
                    (<[oid := set_member payload (clk 0%nat) m]> (db_member s))
                    (db_loan s))
        end
  end.
Proof.
  unfold update_member. unfold_M'.
  destruct (ObjectId_of_str member_id') as [oid|]; [|done]. step_M.
  destruct (UpdateMember_empty payload); [done|]. step_M.
  destruct (db_member s !! oid) as [m|] eqn:Hm; simpl (_ =? _); step_M.
  - rewrite lookup_alter_eq, Hm. cbn [fmap option_fmap option_map].
    by rewrite (alter_lookup_insert _ _ _ _ Hm).
  - by rewrite (alter_lookup_None _ _ _ Hm), DB_eta.
Qed.

(** X6.  A member is created as the request describes it (name, e-mail
    address, phone number, address and [is_active], each as sent), under an
    identifier that was free, and nothing else changes.
    Whether the new member can borrow is decided by that flag alone: a
    borrow by the new member of a book with a copy available goes through
    when the member was created active, and fails with InvalidMember, writing
    nothing, when created inactive. *)
Theorem create_member_then_borrow payload s :
  let s' := (create_member payload s).2 in
  ∃ oid m,
    is_ok (create_member payload s).1 = true
    ∧ db_member s !! oid = None
    ∧ db_member s' = <[oid := m]> (db_member s)
    ∧ db_book s' = db_book s ∧ db_loan s' = db_loan s
    ∧ name m = cm_name payload ∧ email m = cm_email payload
    ∧ phone m = cm_phone payload ∧ address m = cm_address payload
    ∧ is_active m = Some (cm_is_active payload)
    ∧ db_member s' !! oid = Some m
    ∧ ∀ clk req bid b,
        ObjectId_of_str (req_member_id req) = Some oid →
        ObjectId_of_str (req_book_id req) = Some bid →
        db_book s !! bid = Some b → 0 < avail b →
        if cm_is_active payload
        then is_ok (borrow_book clk req s').1 = true
        else borrow_book clk req s' = (Raise InvalidMember, s').
Proof.
  intros s'. destruct (create_member_table payload s) as [r Hr].
  subst s'. rewrite Hr. cbn [fst snd is_ok db_member db_book db_loan].
  eexists (fresh (dom (db_member s))), _.
  split; [done|]. split; [apply not_elem_of_dom, is_fresh|].
  split; [reflexivity|].
  cbn [name email phone address is_active].
  do 7 (split; [done|]).
  split; [by rewrite lookup_insert_eq|].
  intros clk req bid b Hm Hb Hbook Hav.
  match goal with |- context [borrow_book clk req ?s1] =>
    pose proof (borrow_book_table clk req s1) as T end.
  rewrite Hm, Hb in T. cbn [db_member db_book] in T.
  rewrite lookup_insert_eq, Hbook in T. cbn [is_active default] in T.
  destruct (cm_is_active payload); cbn in T; [|done].
  destruct (Z.leb_spec (avail b) 0); [lia|]. destruct T as [r' ->]. done.
Qed.

(** Eve is stored with her phone number and her address. *)
Example create_member_sample :
  let eve := mkMember "Eve" "eve@example.org" (Some "555 0100")
                      (Some "1 Main Street") (Some true) None in
  let oid := fresh (dom (db_member Sample.library)) in
  create_member Desk.eve Sample.library
  = (Ok (Some (mkOut (ObjectId_str oid) eve)),
     mkDB (db_book Sample.library) (<[oid := eve]> (db_member Sample.library))
          (db_loan Sample.library)).
Proof. vm_compute. reflexivity. Qed.

(** X7.  Deactivating a member: an update that carries [is_active = False]
    for an existing member succeeds, changes that member only (books and
    loans, her open loans included, are as before), and from then on every
    borrow by that member fails with InvalidMember and writes nothing. *)
Theorem update_member_deactivation_blocks_borrow clk member_id' payload s oid m :
  ObjectId_of_str member_id' = Some oid →
  db_member s !! oid = Some m →
  um_is_active payload = Some false →
  let s' := (update_member clk member_id' payload s).2 in
  is_ok (update_member clk member_id' payload s).1 = true
  ∧ db_book s' = db_book s
  ∧ db_loan s' = db_loan s
  ∧ (∃ m', db_member s' = <[oid := m']> (db_member s)
           ∧ is_active m' = Some false
           ∧ name m' = default (name m) (um_name payload)
           ∧ email m' = default (email m) (um_email payload))
  ∧ ∀ clk' req,
      ObjectId_of_str (req_member_id req) = Some oid →
      is_Some (ObjectId_of_str (req_book_id req)) →
      borrow_book clk' req s' = (Raise InvalidMember, s').
Proof.
  intros Hid Hm Hact s'.
  pose proof (update_member_table clk member_id' payload s) as T.
  assert (UpdateMember_empty payload = false) as He.
  { destruct payload as [? ? ? ? ia]. cbn in Hact. subst ia.
    unfold UpdateMember_empty. by repeat case_match. }
  rewrite Hid, He, Hm in T. subst s'. rewrite T.
  cbn [fst snd is_ok db_book db_loan db_member].
  split_and!; try done.
  - eexists. split; [done|]. cbn [set_member is_active name email].
    by rewrite Hact.
  - intros clk' req Hreq [bid Hbid].
    match goal with |- context [borrow_book clk' req ?s1] =>
      pose proof (borrow_book_table clk' req s1) as T' end.
    rewrite Hreq, Hbid in T'. cbn [db_member] in T'.
    rewrite lookup_insert_eq in T'. cbn [set_member is_active] in T'.
    by rewrite Hact in T'.
Qed.

Lemma update_member_deactivation_blocks_borrow_witness :
  borrow_book Sample.clock Sample.ann_dune
    (update_member Sample.clock Sample.ann_id Desk.deactivate Sample.library).2
  = (Raise InvalidMember,
     (update_member Sample.clock Sample.ann_id Desk.deactivate Sample.library).2).
Proof.
  destruct (update_member_deactivation_blocks_borrow Sample.clock
              Sample.ann_id Desk.deactivate Sample.library 161%N Sample.ann
              ltac:(vm_compute; reflexivity) ltac:(vm_compute; reflexivity)
              eq_refl) as (_ & _ & _ & _ & H).
  apply H; [vm_compute; reflexivity|]. exists 177%N. vm_compute; reflexivity.
Defined.

(** X8.  After a member has been deleted, a borrow in the member's name
    fails with InvalidMember and writes nothing; the deletion itself removes
    the member only: the loans that carry the member's identifier (all
    returned, or the guard would have refused) and the books are as
    before. *)
Theorem delete_member_then_borrow member_id' s :
  (delete_member member_id' s).1 = Ok true →
  let s' := (delete_member member_id' s).2 in
  ∃ oid,
    ObjectId_of_str member_id' = Some oid
    ∧ db_member s' = delete oid (db_member s)
    ∧ db_book s' = db_book s
    ∧ db_loan s' = db_loan s
    ∧ ∀ clk req,
        ObjectId_of_str (req_member_id req) = Some oid →
        is_Some (ObjectId_of_str (req_book_id req)) →
        borrow_book clk req s' = (Raise InvalidMember, s').
Proof.
  intros Hok s'. pose proof (delete_member_table member_id' s) as T.
  destruct (ObjectId_of_str member_id') as [oid|];
    [|rewrite T in Hok; discriminate].
  destruct (0 <? _); [rewrite T in Hok; discriminate|].
  destruct (db_member s !! oid); [|rewrite T in Hok; discriminate].
  subst s'. rewrite T. cbn [snd db_member db_book db_loan].
  exists oid. split_and!; try done.
  intros clk req Hreq [bid Hbid].
  match goal with |- context [borrow_book clk req ?s1] =>
    pose proof (borrow_book_table clk req s1) as T' end.
  rewrite Hreq, Hbid in T'. cbn [db_member] in T'.
  by rewrite lookup_delete_eq in T'.
Qed.

Lemma delete_member_then_borrow_witness :
  ∃ oid, ObjectId_of_str Sample.cyd_id = Some oid
         ∧ db_loan (delete_member Sample.cyd_id Sample.library).2
           = db_loan Sample.library.
Proof.
  destruct (delete_member_then_borrow Sample.cyd_id Sample.library
              ltac:(vm_compute; reflexivity)) as (oid & H1 & _ & _ & H4 & _).
  exists oid. split; assumption.
Defined.

(** ** More on borrow and return *)

(** X9.  How a return can fail.  With one of the handler's own errors (400
    for a malformed identifier, 404 for an unknown loan) nothing has been
    written.  The only other failure is [InvalidId], raised when the stored
    [book_id] of the loan is not an identifier: it comes after the loan has
    been marked returned, so the loan stays returned, no book is credited,
    and asking again answers the returned loan without an error. *)
Theorem return_book_failure_modes clk loan_id s e :
  (return_book clk loan_id s).1 = Raise e →
  let s' := (return_book clk loan_id s).2 in
  match e with
  | HTTPException _ _ => s' = s
  | InvalidId x =>
      ∃ lid l,
        ObjectId_of_str loan_id = Some lid
        ∧ db_loan s !! lid = Some l
        ∧ status l ≠ "returned"
        ∧ x = book_id l
        ∧ ObjectId_of_str (book_id l) = None
        ∧ db_book s' = db_book s
        ∧ db_member s' = db_member s
        ∧ db_loan s'
          = <[lid := set_returned (clk 0%nat) (clk 1%nat) l]> (db_loan s)
        ∧ ∀ clk', return_book clk' loan_id s'
                  = (Ok (Some (mkLoanOut (ObjectId_str lid)
                                 (set_returned (clk 0%nat) (clk 1%nat) l))),
                     s')
  end.
Proof.
  intros He s'. pose proof (return_book_table clk loan_id s) as T.
  destruct (ObjectId_of_str loan_id) as [lid|] eqn:Hid.
  2:{ subst s'. rewrite T in *. injection He as <-. done. }
  destruct (db_loan s !! lid) as [l|] eqn:Hl.
  2:{ subst s'. rewrite T in *. injection He as <-. done. }
  destruct (String.eqb (status l) "returned") eqn:Hst;
    [rewrite T in He; discriminate|].
  destruct (ObjectId_of_str (book_id l)) as [bid|] eqn:Hbid;
    [rewrite T in He; discriminate|].
  subst s'. rewrite T in *. injection He as <-. cbn [snd].
  exists lid, l. cbn [marked_returned_db db_book db_member db_loan].
  split_and!; try done.
  - by apply String.eqb_neq.
  - by apply alter_lookup_insert.
  - intros clk'.
    pose proof (return_book_table clk' loan_id (marked_returned_db clk lid s))
      as T'.
    rewrite Hid in T'. cbn [marked_returned_db db_loan] in T'.
    by rewrite lookup_alter_eq, Hl in T'.
Qed.

Lemma return_book_failure_modes_witness :
  (return_book Sample.clock "0000000000000000000000ff" Sample.library).2
  = Sample.library.
Proof.
  apply (return_book_failure_modes Sample.clock "0000000000000000000000ff"
           Sample.library LoanNotFound).
  vm_compute; reflexivity.
Defined.

(** The answer of a borrow that goes through, when the identifier given to
    the new loan fits the 96 bits of an [ObjectId]. *)
Lemma borrow_book_answer clk payload s mid bid m b :
  ObjectId_of_str (req_member_id payload) = Some mid →
  ObjectId_of_str (req_book_id payload) = Some bid →
  db_member s !! mid = Some m →
  default true (is_active m) = true →
  db_book s !! bid = Some b →
  0 < avail b →
  (fresh (dom (db_loan s)) < 2 ^ 96)%N →
  borrow_book clk payload s
  = (Ok (Some (mkLoanOut (ObjectId_str (fresh (dom (db_loan s))))
                 (new_loan clk payload))),
     borrowed_db clk payload bid s).
Proof.
  intros Hm Hb Hmem Hact Hbook Hav Hfresh.
  unfold borrow_book, avail in *. unfold_M. rewrite Hm, Hb. step_M.
  rewrite Hmem. step_M. rewrite Hact. step_M. rewrite Hbook. step_M.
  destruct (Z.leb_spec (default 0 (copies_available b)) 0); [lia|].
  rewrite ObjectId_of_str_str, N.mod_small by done. step_M.
  by rewrite lookup_insert_eq.
Qed.

(** X10.  Borrow, then return: when a borrow has gone through, returning
    the loan it answered (by the [id] of the answer) succeeds and puts the
    stock back: the book has again the [copies_available] it had before the
    borrow, no other book has changed, members are as before, the number of
    open loans of every book is what it was, and the only trace is the new
    loan, now returned.  (The identifier given to the loan is supposed to fit
    the 96 bits of an [ObjectId].) *)
Theorem borrow_then_return_restores_stock clk clk' payload s :
  is_ok (borrow_book clk payload s).1 = true →
  (fresh (dom (db_loan s)) < 2 ^ 96)%N →
  ∃ out bid b,
    (borrow_book clk payload s).1 = Ok (Some out)
    ∧ ObjectId_of_str (req_book_id payload) = Some bid
    ∧ db_book s !! bid = Some b
    ∧ let s1 := (borrow_book clk payload s).2 in
      let s2 := (return_book clk' (id out) s1).2 in
      is_ok (return_book clk' (id out) s1).1 = true
      ∧ (∃ b2, db_book s2 = <[bid := b2]> (db_book s)
               ∧ copies_available b2 = Some (avail b)
               ∧ total_copies b2 = total_copies b
               ∧ title b2 = title b)
      ∧ db_member s2 = db_member s
      ∧ (∀ o, lent_out s2 o = lent_out s o)
      ∧ (∃ lid l, db_loan s !! lid = None
                  ∧ db_loan s2 = <[lid := l]> (db_loan s)
                  ∧ status l = "returned"
                  ∧ returned_at l = Some (clk' 0%nat)).
Proof.
  intros Hok Hfresh.
  destruct (borrow_book_cases clk payload s)
    as [[e Hr]|(mid & bid & m & b & r & Hm & Hb & Hmem & Hact & Hbook & Hav & _)];
    [rewrite Hr in Hok; discriminate|].
  pose proof (borrow_book_answer clk payload s mid bid m b
                Hm Hb Hmem Hact Hbook Hav Hfresh) as Hr.
  set (lid := fresh (dom (db_loan s))) in *.
  assert (Hnew : db_loan s !! lid = None) by apply not_elem_of_dom, is_fresh.
  exists (mkLoanOut (ObjectId_str lid) (new_loan clk payload)), bid, b.
  rewrite Hr. cbn [fst snd id].
  do 3 (split; [done|]).
  pose proof (return_book_table clk' (ObjectId_str lid)
                (borrowed_db clk payload bid s)) as T.
  rewrite ObjectId_of_str_str, N.mod_small in T by done.
  cbn [borrowed_db db_loan] in T. fold lid in T.
  rewrite lookup_insert_eq in T.
  cbn [new_loan status book_id String.eqb Ascii.eqb Bool.eqb] in T.
  rewrite Hb in T. fold (new_loan clk payload) in T.
  rewrite T. cbn [fst snd is_ok returned_db borrowed_db db_book db_member db_loan].
  change (fresh (dom (db_loan s))) with lid. split_and!; try done.
  - exists (inc_copies_available 1 (clk' 2%nat)
              (inc_copies_available (-1) (clk 2%nat) b)).
    split_and!; try done.
    + by rewrite (alter_lookup_insert _ _ _ _ Hbook), alter_insert_eq.
    + cbn [inc_copies_available copies_available]. unfold avail. cbn.
      f_equal. lia.
  - intros o. unfold lent_out. cbn [returned_db borrowed_db db_loan].
    change (fresh (dom (db_loan s))) with lid.
    rewrite alter_insert_eq, count_where_insert_fresh by done.
    rewrite decide_False; [lia|]. by intros [_ Hs].
  - exists lid, (set_returned (clk' 0%nat) (clk' 1%nat) (new_loan clk payload)).
    split_and!; try done. by rewrite alter_insert_eq.
Qed.

Lemma borrow_then_return_restores_stock_witness :
  ∃ out,
    (borrow_book Sample.clock Sample.ann_dune Sample.library).1 = Ok (Some out)
    ∧ db_member
        (return_book Sample.clock (id out)
           (borrow_book Sample.clock Sample.ann_dune Sample.library).2).2
      = db_member Sample.library.
Proof.
  destruct (borrow_then_return_restores_stock Sample.clock Sample.clock
              Sample.ann_dune Sample.library
              ltac:(vm_compute; reflexivity) ltac:(vm_compute; reflexivity))
    as (out & bid & b & H1 & _ & _ & _ & _ & H5 & _).
  exists out. split; assumption.
Defined.

(** ** Counts and sums under the writes of the handlers *)

Lemma count_where_empty {A} (P : A → Prop) `{∀ x, Decision (P x)} :
  count_where P (∅ : gmap ObjectId A) = 0.
Proof. unfold count_where. by rewrite map_filter_empty, map_size_empty. Qed.

Lemma count_where_none {A} (P : A → Prop) `{∀ x, Decision (P x)}
    (m : gmap ObjectId A) :
  (∀ i x, m !! i = Some x → ¬ P x) → count_where P m = 0.
Proof.
  intros HP. unfold count_where.
  rewrite map_empty_filter_2; [by rewrite map_size_empty|].
  intros i x Hi. by apply HP with i.
Qed.

Lemma count_where_ext {A} (P Q : A → Prop)
    `{∀ x, Decision (P x)} `{∀ x, Decision (Q x)} (m : gmap ObjectId A) :
  (∀ i x, m !! i = Some x → P x ↔ Q x) →
  count_where P m = count_where Q m.
Proof.
  intros HPQ. unfold count_where. f_equal. f_equal.
  apply map_filter_ext. intros i x Hi. by apply HPQ with i.
Qed.

Lemma count_where_fmap {A} (P : A → Prop) `{∀ x, Decision (P x)}
    (g : A → A) (m : gmap ObjectId A) :
  count_where P (g <$> m) = count_where (λ x, P (g x)) m.
Proof.
  induction m as [|i x m Hi IH] using map_ind.
  - by rewrite fmap_empty, !count_where_empty.
  - rewrite fmap_insert, !count_where_insert_fresh, IH; [done..|].
    by rewrite lookup_fmap, Hi.
Qed.

Lemma count_where_or {A} (P Q : A → Prop)
    `{∀ x, Decision (P x)} `{∀ x, Decision (Q x)} (m : gmap ObjectId A) :
  (∀ x, P x → Q x → False) →
  count_where (λ x, P x ∨ Q x) m = count_where P m + count_where Q m.
Proof.
  intros Hdis. induction m as [|i x m Hi IH] using map_ind.
  - by rewrite !count_where_empty.
  - rewrite !count_where_insert_fresh, IH by done.
    pose proof (Hdis x). repeat case_decide; tauto || lia.
Qed.

Lemma sum_over_insert_fresh {A} (f : A → Z) (m : gmap ObjectId A) i x :
  m !! i = None → sum_over f (<[i := x]> m) = f x + sum_over f m.
Proof.
  intros Hi. unfold sum_over. rewrite map_fold_insert_L; [done| |done].
  intros. lia.
Qed.

Lemma sum_over_alter {A} (f : A → Z) (g : A → A) (m : gmap ObjectId A) i x :
  m !! i = Some x →
  sum_over f (alter g i m) = sum_over f m - f x + f (g x).
Proof.
  intros Hi. rewrite (alter_lookup_insert g m i x Hi).
  rewrite <- (insert_delete_eq m i (g x)).
  rewrite <- (insert_id m i x Hi) at 2.
  rewrite <- (insert_delete_eq m i x).
  rewrite !sum_over_insert_fresh by apply lookup_delete_eq. lia.
Qed.

Lemma size_alter {A} (g : A → A) (m : gmap ObjectId A) i :
  size (alter g i m) = size m.
Proof.
  destruct (m !! i) as [x|] eqn:Hi.
  - rewrite (alter_lookup_insert g m i x Hi). by apply map_size_insert_Some.
  - by rewrite (alter_lookup_None g m i Hi).
Qed.

(** What [stats] answers, collection by collection. *)
Lemma stats_table s :
  stats s
  = (Ok (mkStats (Z.of_nat (size (db_book s)))
                 (sum_over total_copies (db_book s))
                 (sum_over avail (db_book s))
                 (Z.of_nat (size (db_member s)))
                 (count_where (λ l, status l = "borrowed" ∨ status l = "overdue")
                              (db_loan s))
                 (count_where (λ l, status l = "overdue") (db_loan s))), s).
Proof.
  destruct (aggregate_copies_sums s) as (rows & Hrows & Htot & Hav).
  unfold stats, mbind, M_bind, mret, M_ret.
  rewrite (count_documents_all book), Hrows, (count_documents_all member).
  rewrite (count_documents_where loan _
             (λ l, status l = "borrowed" ∨ status l = "overdue") s).
  2:{ intros l. by rewrite orb_true_iff, !String.eqb_eq. }
  rewrite (count_documents_where loan _ (λ l, status l = "overdue") s).
  2:{ intros l. by rewrite String.eqb_eq. }
  by rewrite Htot, Hav.
Qed.

(** X11.  The statistics after a borrow that went through: one copy less
    available, one active loan more; the number of books, the copies owned,
    the number of members and the overdue count are as before. *)
Theorem stats_after_borrow clk payload s :
  is_ok (borrow_book clk payload s).1 = true →
  let s' := (borrow_book clk payload s).2 in
  ∃ r r',
    stats s = (Ok r, s) ∧ stats s' = (Ok r', s')
    ∧ books r' = books r
    ∧ copies r' = copies r
    ∧ available r' = available r - 1
    ∧ members r' = members r
    ∧ active_loans r' = active_loans r + 1
    ∧ overdue r' = overdue r.
Proof.
  intros Hok s'.
  destruct (borrow_book_cases clk payload s)
    as [[e Hr]|(mid & bid & m & b & r & _ & _ & _ & _ & Hbook & _ & Hr)];
    [rewrite Hr in Hok; discriminate|].
  subst s'. rewrite Hr. cbn [snd]. eexists _, _.
  split; [apply stats_table|]. split; [apply stats_table|].
  cbn [books copies available members active_loans overdue
       borrowed_db db_book db_member db_loan].
  assert (Hnew : db_loan s !! fresh (dom (db_loan s)) = None)
    by apply not_elem_of_dom, is_fresh.
  rewrite size_alter, !(sum_over_alter _ _ _ _ _ Hbook), avail_inc.
  rewrite !count_where_insert_fresh by done.
  cbn [inc_copies_available total_copies new_loan status].
  rewrite decide_True by (by left). rewrite decide_False by done.
  split_and!; lia.
Qed.

Lemma stats_after_borrow_witness :
  ∃ r r',
    stats Sample.library = (Ok r, Sample.library)
    ∧ (stats (borrow_book Sample.clock Sample.ann_dune Sample.library).2).1
      = Ok r'
    ∧ available r' = available r - 1.
Proof.
  destruct (stats_after_borrow Sample.clock Sample.ann_dune Sample.library
              ltac:(vm_compute; reflexivity))
    as (r & r' & H1 & H2 & _ & _ & H5 & _).
  exists r, r'. split_and!; [exact H1|by rewrite H2|exact H5].
Defined.

(** X12.  The statistics after the return of a borrowed or overdue loan:
    one active loan less, one overdue loan less when the loan was overdue,
    and one copy more available when the book of the loan still exists (none
    when it has been deleted); books, copies owned and members as before. *)
Theorem stats_after_return clk loan_id s lid l bid :
  ObjectId_of_str loan_id = Some lid →
  db_loan s !! lid = Some l →
  status l = "borrowed" ∨ status l = "overdue" →
  ObjectId_of_str (book_id l) = Some bid →
  let s' := (return_book clk loan_id s).2 in
  ∃ r r',
    stats s = (Ok r, s) ∧ stats s' = (Ok r', s')
    ∧ books r' = books r
    ∧ copies r' = copies r
    ∧ available r'
      = available r + (if db_book s !! bid is Some _ then 1 else 0)
    ∧ members r' = members r
    ∧ active_loans r' = active_loans r - 1
    ∧ overdue r'
      = overdue r - (if decide (status l = "overdue") then 1 else 0).
Proof.
  intros Hid Hl Hst Hbid s'.
  pose proof (return_book_table clk loan_id s) as T.
  rewrite Hid, Hl, Hbid in T.
  assert (String.eqb (status l) "returned" = false) as Hne
    by (destruct Hst as [-> | ->]; reflexivity).
  rewrite Hne in T. subst s'. rewrite T. cbn [snd]. eexists _, _.
  split; [apply stats_table|]. split; [apply stats_table|].
  cbn [books copies available members active_loans overdue
       returned_db db_book db_member db_loan].
  rewrite size_alter, !(count_where_alter _ _ _ _ _ Hl).
  cbn [set_returned status].
  rewrite (decide_True _ _ Hst).
  rewrite (decide_False (P := "returned" = "borrowed" ∨ "returned" = "overdue"))
    by (by intros [|]).
  rewrite (decide_False (P := "returned" = "overdue")) by done.
  destruct (db_book s !! bid) as [b|] eqn:Hb.
  - rewrite !(sum_over_alter _ _ _ _ _ Hb), avail_inc.
    cbn [inc_copies_available total_copies]. split_and!; lia.
  - rewrite (alter_lookup_None _ _ _ Hb). split_and!; lia.
Qed.

Lemma stats_after_return_witness :
  ∃ r r',
    stats Sample.library = (Ok r, Sample.library)
    ∧ (stats (return_book Sample.clock Sample.loan_id Sample.library).2).1
      = Ok r'
    ∧ available r' = available r + 1
    ∧ active_loans r' = active_loans r - 1.
Proof.
  destruct (stats_after_return Sample.clock Sample.loan_id Sample.library
              193%N Sample.ann_emma 178%N
              ltac:(vm_compute; reflexivity) ltac:(vm_compute; reflexivity)
              (or_introl eq_refl) ltac:(vm_compute; reflexivity))
    as (r & r' & H1 & H2 & _ & _ & H5 & _ & H7 & _).
  exists r, r'. split_and!; [exact H1|by rewrite H2|exact H5|exact H7].
Defined.

(** X13.  The statistics across a listing of the loans.  The sweep moves
    loans from "borrowed" to "overdue" only, so the number of active loans is
    the same before and after, the overdue count grows by the number of loans
    that were borrowed and past due, and the figures about books and members
    do not move.  After the listing no loan is both borrowed and past due. *)
Theorem stats_after_listing clk status_q s :
  let now := clk 0%nat in
  let s' := (list_loans clk status_q s).2 in
  ∃ r r',
    stats s = (Ok r, s) ∧ stats s' = (Ok r', s')
    ∧ books r' = books r ∧ copies r' = copies r
    ∧ available r' = available r ∧ members r' = members r
    ∧ active_loans r' = active_loans r
    ∧ overdue r'
      = overdue r
        + count_where (λ l, status l = "borrowed" ∧ due_at l < now) (db_loan s)
    ∧ overdue r ≤ overdue r'
    ∧ count_where (λ l, status l = "borrowed" ∧ due_at l < now) (db_loan s') = 0.
Proof.
  intros now s'. destruct (list_loans_db clk status_q s) as [out Hout].
  subst s'. rewrite Hout. cbn [snd]. fold now. eexists _, _.
  split; [apply stats_table|]. split; [apply stats_table|].
  cbn [books copies available members active_loans overdue
       sweep db_book db_member db_loan].
  rewrite !count_where_fmap.
  assert (Hg : ∀ l : Loan,
             status (if is_overdue now l then set_overdue l else l)
             = if is_overdue now l then "overdue" else status l)
    by (intros l; by destruct (is_overdue now l)).
  pose proof (count_where_nonneg
                (λ l, status l = "borrowed" ∧ due_at l < now) (db_loan s)).
  assert (Hov : count_where
                  (λ l, status (if is_overdue now l then set_overdue l else l)
                        = "overdue") (db_loan s)
                = count_where (λ l, status l = "overdue") (db_loan s)
                  + count_where (λ l, status l = "borrowed" ∧ due_at l < now)
                                (db_loan s)).
  { rewrite <- count_where_or by (intros l Ho [Hb _]; congruence).
    apply count_where_ext. intros i l _. rewrite Hg.
    destruct (is_overdue now l) eqn:Hl.
    - apply is_overdue_spec in Hl. tauto.
    - split; [tauto|]. intros [?|Hl']; [done|].
      apply is_overdue_spec in Hl'. congruence. }
  split_and!; try done; try lia.
  - apply count_where_ext. intros i l _. rewrite Hg.
    destruct (is_overdue now l) eqn:Hl; [|done].
    apply is_overdue_spec in Hl as [-> _]. tauto.
  - apply count_where_none. intros i l _. rewrite Hg.
    destruct (is_overdue now l) eqn:Hl.
    + intros [? _]. done.
    + intros Hl'%is_overdue_spec. congruence.
Qed.

Lemma sum_over_le {A} (f g : A → Z) (m : gmap ObjectId A) :
  (∀ i x, m !! i = Some x → f x ≤ g x) → sum_over f m ≤ sum_over g m.
Proof.
  induction m as [|i x m Hi IH] using map_ind; intros Hle.
  - unfold sum_over. by rewrite !map_fold_empty.
  - rewrite !sum_over_insert_fresh by done.
    pose proof (Hle i x (lookup_insert_eq _ _ _)).
    assert (sum_over f m ≤ sum_over g m); [|lia].
    apply IH. intros j y Hj. apply (Hle j).
    rewrite lookup_insert_ne; [done|]. intros ->. congruence.
Qed.

(** X14.  The figures of the statistics fit together: the overdue loans
    are among the active ones ([0 ≤ overdue ≤ active_loans], the difference
    being the loans with status "borrowed"), and when every book is within
    its bounds the copies available are between 0 and the copies owned. *)
Theorem stats_consistent s :
  ∃ r,
    stats s = (Ok r, s)
    ∧ 0 ≤ overdue r ≤ active_loans r
    ∧ active_loans r
      = count_where (λ l, status l = "borrowed") (db_loan s) + overdue r
    ∧ ((∀ o, is_Some (db_book s !! o) → in_bounds s o) →
       0 ≤ available r ≤ copies r).
Proof.
  eexists. split; [apply stats_table|].
  cbn [books copies available members active_loans overdue].
  pose proof (count_where_nonneg (λ l, status l = "borrowed") (db_loan s)).
  pose proof (count_where_nonneg (λ l, status l = "overdue") (db_loan s)).
  rewrite count_where_or by (intros l; congruence).
  split_and!; try lia.
  intros Hb. split.
  - etrans; [|apply (sum_over_le (λ _, 0) avail)].
    + clear. induction (db_book s) as [|i x m Hi IH] using map_ind.
      * unfold sum_over. by rewrite map_fold_empty.
      * rewrite sum_over_insert_fresh by done. lia.
    + intros i b Hi. destruct (Hb i) as (b' & Hb' & Hle); [by eexists|].
      rewrite Hi in Hb'. injection Hb' as <-. lia.
  - apply sum_over_le. intros i b Hi.
    destruct (Hb i) as (b' & Hb' & Hle); [by eexists|].
    rewrite Hi in Hb'. injection Hb' as <-. lia.
Qed.

(** ** Any sequence of requests *)

Lemma list_books_db regex q c s : (list_books regex q c s).2 = s.
Proof.
  unfold list_books.
  destruct q as [[|a pat]|]; [|destruct (regex _)|]; unfold_M; by step_M.
Qed.

Lemma list_members_db regex q s : (list_members regex q s).2 = s.
Proof.
  unfold list_members.
  destruct q as [[|a pat]|]; [|destruct (regex _)|]; unfold_M; by step_M.
Qed.

(** The requests that leave the loans alone. *)
Lemma after_loans_same a s :
  match a with
  | DoListLoans _ _ | DoBorrow _ _ | DoReturn _ _ => True
  | _ => db_loan (after a s) = db_loan s
  end.
Proof.
  destruct a as [regex q c|payload|clk i payload|i|regex q|payload
                 |clk i payload|i|clk q|clk payload|clk i|]; cbn [after].
  - by rewrite list_books_db.
  - pose proof (create_book_table payload s) as T. cbn zeta in T.
    destruct (_ && _); [destruct T as [r ->]|rewrite T]; done.
  - pose proof (update_book_table clk i payload s) as T.
    destruct (ObjectId_of_str i) as [oid|]; [|by rewrite T].
    destruct (UpdateBook_empty payload); [by rewrite T|].
    destruct (db_book s !! oid); by rewrite T.
  - pose proof (delete_book_table i s) as T.
    destruct (ObjectId_of_str i) as [oid|]; [|by rewrite T].
    destruct (db_book s !! oid); by rewrite T.
  - by rewrite list_members_db.
  - destruct (create_member_table payload s) as [r ->]. done.
  - pose proof (update_member_table clk i payload s) as T.
    destruct (ObjectId_of_str i) as [oid|]; [|by rewrite T].
    destruct (UpdateMember_empty payload); [by rewrite T|].
    destruct (db_member s !! oid); by rewrite T.
  - pose proof (delete_member_table i s) as T.
    destruct (ObjectId_of_str i) as [oid|]; [|by rewrite T].
    destruct (0 <? _); [by rewrite T|].
    destruct (db_member s !! oid); by rewrite T.
  - done.
  - done.
  - done.
  - by rewrite stats_table.
Qed.

Lemma evolves_refl l : evolves l l.
Proof. unfold evolves. tauto. Qed.

Lemma evolves_trans l1 l2 l3 : evolves l1 l2 → evolves l2 l3 → evolves l1 l3.
Proof.
  unfold evolves.
  intros (? & ? & ? & ? & Hr1 & Hs1) (? & ? & ? & ? & Hr2 & Hs2).
  split_and!; try congruence.
  - intros Hret. pose proof (Hr1 Hret) as ->. by apply Hr2.
  - destruct Hs2 as [Hs2|[[Hb Ho]|Hs2]]; [| |tauto].
    + rewrite Hs2. tauto.
    + destruct Hs1 as [Hs1|[[? Hs1]|Hs1]]; [|congruence..].
      right. left. split; congruence.
Qed.

(** One request: every loan is still there, in a later state. *)
Lemma after_evolves a s lid l :
  db_loan s !! lid = Some l →
  ∃ l', db_loan (after a s) !! lid = Some l' ∧ evolves l l'.
Proof.
  intros Hl. pose proof (after_loans_same a s) as Hsame.
  destruct a as [regex q c|payload|clk i payload|i|regex q|payload
                 |clk i payload|i|clk q|clk payload|clk i|];
    try (rewrite Hsame; exists l; split; [done|apply evolves_refl]);
    cbn [after]; clear Hsame.
  - destruct (list_loans_db clk q s) as [out ->]. cbn [snd].
    rewrite sweep_lookup, Hl. cbn [fmap option_fmap option_map].
    eexists. split; [done|].
    destruct (is_overdue (clk 0%nat) l) eqn:Hov; [|apply evolves_refl].
    apply is_overdue_spec in Hov as [Hb _]. unfold evolves.
    cbn [set_overdue member_id book_id borrowed_at due_at status].
    split_and!; try done; [congruence|tauto].
  - destruct (borrow_book_cases clk payload s)
      as [[e ->]|(mid & bid & m & b & r & _ & _ & _ & _ & _ & _ & ->)];
      cbn [snd borrowed_db db_loan].
    + exists l. split; [done|apply evolves_refl].
    + exists l. split; [|apply evolves_refl].
      rewrite lookup_insert_ne; [done|]. intros Heq.
      pose proof (is_fresh (dom (db_loan s))) as Hf.
      rewrite Heq in Hf. apply Hf, elem_of_dom. by eexists.
  - pose proof (return_book_table clk i s) as T.
    destruct (ObjectId_of_str i) as [lid'|];
      [|rewrite T; exists l; split; [done|apply evolves_refl]].
    destruct (db_loan s !! lid') as [l0|] eqn:Hl0;
      [|rewrite T; exists l; split; [done|apply evolves_refl]].
    destruct (String.eqb (status l0) "returned") eqn:Hst;
      [rewrite T; exists l; split; [done|apply evolves_refl]|].
    apply String.eqb_neq in Hst.
    assert (∃ l', alter (set_returned (clk 0%nat) (clk 1%nat)) lid' (db_loan s)
                  !! lid = Some l' ∧ evolves l l') as Hgoal.
    { destruct (decide (lid' = lid)) as [->|Hne].
      - rewrite lookup_alter_eq, Hl. eexists. split; [done|].
        rewrite Hl in Hl0. injection Hl0 as <-. unfold evolves.
        cbn [set_returned member_id book_id borrowed_at due_at status].
        split_and!; try done. tauto.
      - rewrite lookup_alter_ne by done. exists l.
        split; [done|apply evolves_refl]. }
    destruct (ObjectId_of_str (book_id l0)); rewrite T; exact Hgoal.
Qed.

Lemma after_all_evolves acts s lid l :
  db_loan s !! lid = Some l →
  ∃ l', db_loan (after_all acts s) !! lid = Some l' ∧ evolves l l'.
Proof.
  revert s l. induction acts as [|a acts IH]; intros s l Hl.
  - exists l. split; [done|apply evolves_refl].
  - destruct (after_evolves a s lid l Hl) as (l1 & Hl1 & He1).
    destruct (IH (after a s) l1 Hl1) as (l2 & Hl2 & He2).
    exists l2. split; [done|]. by apply evolves_trans with l1.
Qed.

(** X15.  No endpoint deletes a loan or rewrites what it records: after
    any sequence of requests, to any of the endpoints, a loan that was in the
    database is still there, under the same identifier, with the same
    [member_id], [book_id], [borrowed_at] and [due_at]. *)
Theorem loans_are_kept acts s lid l :
  db_loan s !! lid = Some l →
  ∃ l',
    db_loan (after_all acts s) !! lid = Some l'
    ∧ member_id l' = member_id l ∧ book_id l' = book_id l
    ∧ borrowed_at l' = borrowed_at l ∧ due_at l' = due_at l.
Proof.
  intros Hl.
  destruct (after_all_evolves acts s lid l Hl) as (l' & Hl' & He).
  exists l'. unfold evolves in He. tauto.
Qed.

Lemma loans_are_kept_witness :
  ∃ l',
    db_loan (after_all [DoReturn Sample.clock Sample.loan_id;
                        DoDeleteMember Sample.ann_id;
                        DoDeleteBook Sample.emma_id] Sample.library)
      !! 193%N = Some l'
    ∧ member_id l' = Sample.ann_id ∧ book_id l' = Sample.emma_id.
Proof.
  destruct (loans_are_kept
              [DoReturn Sample.clock Sample.loan_id;
               DoDeleteMember Sample.ann_id;
               DoDeleteBook Sample.emma_id]
              Sample.library 193%N Sample.ann_emma
              ltac:(vm_compute; reflexivity)) as (l' & H1 & H2 & H3 & _).
  exists l'. split_and!; assumption.
Defined.

(** X16.  The status of a loan only moves forward.  After any sequence of
    requests to any of the endpoints: a returned loan is exactly as it was
    ("returned" is final, and [returned_at] is never rewritten); an overdue
    loan is overdue or returned, never "borrowed" again; a borrowed loan is
    borrowed, overdue or returned. *)
Theorem loan_status_moves_forward acts s lid l :
  db_loan s !! lid = Some l →
  ∃ l',
    db_loan (after_all acts s) !! lid = Some l'
    ∧ (status l = "returned" → l' = l)
    ∧ (status l = "overdue" →
       status l' = "overdue" ∨ status l' = "returned")
    ∧ (status l = "borrowed" →
       status l' = "borrowed" ∨ status l' = "overdue" ∨ status l' = "returned").
Proof.
  intros Hl.
  destruct (after_all_evolves acts s lid l Hl)
    as (l' & Hl' & _ & _ & _ & _ & Hret & Hst).
  exists l'. split_and!; [done|done| |].
  - intros Ho. rewrite Ho in Hst.
    destruct Hst as [?|[[? _]|?]]; [tauto|congruence|tauto].
  - intros Hb. rewrite Hb in Hst. tauto.
Qed.

Lemma loan_status_moves_forward_witness :
  db_loan (after_all [DoListLoans (λ _, Sample.clock 100) None;
                      DoReturn Sample.clock Sample.loan_id';
                      DoBorrow Sample.clock Sample.cyd_dune] Sample.library)
    !! 194%N = Some Sample.cyd_emma.
Proof.
  destruct (loan_status_moves_forward
              [DoListLoans (λ _, Sample.clock 100) None;
               DoReturn Sample.clock Sample.loan_id';
               DoBorrow Sample.clock Sample.cyd_dune]
              Sample.library 194%N Sample.cyd_emma
              ltac:(vm_compute; reflexivity)) as (l' & H1 & H2 & _).
  exact (eq_trans H1 (f_equal Some (H2 eq_refl))).
Defined.

Lemma accounted_same s s' o :
  db_book s' !! o = db_book s !! o → db_loan s' = db_loan s →
  accounted s o → accounted s' o.
Proof.
  intros Hb Hl (b & Hbo & H). exists b. unfold lent_out in *.
  by rewrite Hb, Hl.
Qed.

Lemma sweep_accounted now s o : accounted s o → accounted (sweep now s) o.
Proof.
  intros (b & Hbo & Hnn & Hacc). exists b. split; [done|]. split; [done|].
  unfold lent_out in *. cbn [sweep db_loan]. rewrite count_where_fmap.
  rewrite (count_where_ext _ (out_for o)); [done|].
  intros i l _. destruct (is_overdue now l) eqn:Hov; [|done].
  apply is_overdue_spec in Hov as [Hb _]. unfold out_for.
  cbn [set_overdue book_id status]. rewrite Hb. split; intros [? _]; done.
Qed.

Lemma after_accounted a s o :
  spares o a → accounted s o → accounted (after a s) o.
Proof.
  intros Hsp Hacc. pose proof Hacc as (bo & Hbo & _).
  destruct a as [regex q c|payload|clk i payload|i|regex q|payload
                 |clk i payload|i|clk q|clk payload|clk i|]; cbn [after spares] in *.
  - by rewrite list_books_db.
  - pose proof (create_book_table payload s) as T. cbn zeta in T.
    destruct (_ && _); [destruct T as [r ->]|by rewrite T]. cbn [snd].
    apply (accounted_same s); [|done|done]. cbn [db_book].
    apply lookup_insert_ne. intros Heq.
    pose proof (is_fresh (dom (db_book s))) as Hf.
    rewrite Heq in Hf. apply Hf, elem_of_dom. by eexists.
  - pose proof (update_book_table clk i payload s) as T.
    destruct (ObjectId_of_str i) as [oid|]; [|by rewrite T].
    destruct (UpdateBook_empty payload); [by rewrite T|].
    destruct (db_book s !! oid) as [b|] eqn:Hb; rewrite T; [|done].
    cbn [snd]. destruct (decide (oid = o)) as [->|Hne].
    + destruct (Hsp eq_refl) as [Ht Ha].
      destruct Hacc as (b' & Hb' & Hnn & Hle). rewrite Hb in Hb'.
      injection Hb' as <-. exists (set_book payload (clk 0%nat) b).
      cbn [db_book]. rewrite lookup_insert_eq. split; [done|].
      unfold lent_out, avail in *.
      cbn [db_loan set_book copies_available total_copies].
      by rewrite Ht, Ha.
    + apply (accounted_same s); [|done|done]. cbn [db_book].
      by apply lookup_insert_ne.
  - pose proof (delete_book_table i s) as T.
    destruct (ObjectId_of_str i) as [oid|]; [|by rewrite T].
    destruct (db_book s !! oid); rewrite T; [|done]. cbn [snd].
    apply (accounted_same s); [|done|done]. cbn [db_book].
    apply lookup_delete_ne. congruence.
  - by rewrite list_members_db.
  - destruct (create_member_table payload s) as [r ->].
    by apply (accounted_same s).
  - pose proof (update_member_table clk i payload s) as T.
    destruct (ObjectId_of_str i) as [oid|]; [|by rewrite T].
    destruct (UpdateMember_empty payload); [by rewrite T|].
    destruct (db_member s !! oid); rewrite T; [|done].
    by apply (accounted_same s).
  - pose proof (delete_member_table i s) as T.
    destruct (ObjectId_of_str i) as [oid|]; [|by rewrite T].
    destruct (0 <? _); [by rewrite T|].
    destruct (db_member s !! oid); rewrite T; [|done].
    by apply (accounted_same s).
  - destruct (list_loans_db clk q s) as [out ->]. by apply sweep_accounted.
  - by apply borrow_book_accounted.
  - by apply return_book_accounted.
  - by rewrite stats_table.
Qed.

(** X17.  The accounting of a book's copies ([0 ≤ copies_available], and
    [copies_available] plus the number of its loans not yet returned at most
    [total_copies]) is kept by every request to every endpoint, except an
    update of the book that writes [total_copies] or [copies_available] and
    the deletion of the book: after any sequence of the other requests the
    copies are still accounted for, and [0 ≤ copies_available ≤
    total_copies]. *)
Theorem accounting_kept_by_sparing_requests acts s o :
  Forall (spares o) acts →
  accounted s o →
  accounted (after_all acts s) o ∧ in_bounds (after_all acts s) o.
Proof.
  intros Hsp Hacc.
  assert (Hfin : accounted (after_all acts s) o).
  { revert s Hacc. induction Hsp as [|a acts Ha _ IH]; intros s Hacc; [done|].
    apply (IH (after a s)). by apply after_accounted. }
  split; [done|].
  destruct Hfin as (b & Hb & Hnn & Hle). exists b. split; [done|].
  pose proof (count_where_nonneg (out_for o) (db_loan (after_all acts s))).
  unfold lent_out in Hle. lia.
Qed.

Lemma accounting_kept_by_sparing_requests_witness :
  in_bounds (after_all [DoCreateBook Desk.persuasion;
                        DoUpdateBook Sample.clock Sample.emma_id Desk.to_fiction;
                        DoListLoans (λ _, Sample.clock 100) None;
                        DoReturn Sample.clock Sample.loan_id;
                        DoDeleteMember Sample.ann_id;
                        DoBorrow Sample.clock
                          (mkBorrowRequest Sample.cyd_id Sample.emma_id 7)]
                       Sample.library) 178%N.
Proof.
  refine (proj2 (accounting_kept_by_sparing_requests _ Sample.library 178%N _ _)).
  - repeat constructor; cbn; done.
  - exists Sample.emma. split_and!;
      [vm_compute; reflexivity|vm_compute; discriminate..].
Defined.

(** ** The listings *)

Lemma insert_by_Permutation {A} (le : A → A → bool) d l :
  insert_by le d l ≡ₚ d :: l.
Proof.
  induction l as [|x r IH]; cbn [insert_by]; [done|].
  destruct (le d x); [done|]. rewrite IH. apply Permutation_swap.
Qed.

Lemma sort_by_Permutation {A} (le : A → A → bool) l : sort_by le l ≡ₚ l.
Proof.
  induction l as [|x r IH]; [done|].
  cbn [sort_by foldr]. fold (sort_by le r).
  by rewrite insert_by_Permutation, IH.
Qed.

(** The order that insertion by [le] builds: [a] stands before [b] when
    [b] was not to go before [a], or [a] was to go before [b]. *)
Lemma insert_by_Sorted {A} (le : A → A → bool) d l :
  let R a b := le b a = false ∨ le a b = true in
  Sorted R l → Sorted R (insert_by le d l).
Proof.
  intros R. induction l as [|x r IH]; intros Hs; cbn [insert_by].
  - by repeat constructor.
  - destruct (le d x) eqn:Hdx.
    + constructor; [done|]. constructor. by right.
    + apply Sorted_inv in Hs as [Hs Hhd]. constructor; [by apply IH|].
      destruct r as [|y r']; cbn [insert_by].
      * constructor. by left.
      * destruct (le d y); constructor; [by left|].
        by apply HdRel_inv in Hhd.
Qed.

Lemma sort_by_Sorted {A} (le : A → A → bool) l :
  Sorted (λ a b, le b a = false ∨ le a b = true) (sort_by le l).
Proof.
  induction l as [|x r IH]; [constructor|].
  cbn [sort_by foldr]. by apply insert_by_Sorted.
Qed.

Lemma Sorted_weaken {A} (R R' : A → A → Prop) l :
  (∀ a b, R a b → R' a b) → Sorted R l → Sorted R' l.
Proof.
  intros HR. induction 1 as [|x l _ IH Hhd]; constructor; [done|].
  destruct Hhd; constructor. by apply HR.
Qed.

Lemma sort_borrowed_at_desc_sort_by l :
  sort_borrowed_at_desc l
  = sort_by (λ d x, borrowed_at x.2 <? borrowed_at d.2) l.
Proof.
  unfold sort_borrowed_at_desc, sort_by.
  induction l as [|x r IH]; [done|]. cbn [foldr]. rewrite IH.
  generalize (foldr (insert_by (λ d x0 : ObjectId * Loan,
                                  borrowed_at x0.2 <? borrowed_at d.2)) [] r).
  intros k. induction k as [|y k IHk]; [done|].
  cbn [insert_desc insert_by]. by rewrite IHk.
Qed.

Lemma filter_all {A} (l : list A) : filter (λ _ : A, true = true) l = l.
Proof.
  induction l as [|x l IH]; [done|].
  rewrite filter_cons, IH. by case_decide.
Qed.

Lemma filter_map_to_list {A} (P : ObjectId * A → Prop)
    `{∀ x, Decision (P x)} (m : gmap ObjectId A) :
  filter P (map_to_list m) ≡ₚ map_to_list (filter P m).
Proof.
  apply NoDup_Permutation.
  - apply NoDup_filter, NoDup_map_to_list.
  - apply NoDup_map_to_list.
  - intros [i x]. rewrite list_elem_of_filter, !elem_of_map_to_list.
    rewrite map_lookup_filter_Some. tauto.
Qed.

(** What [list_loans] answers and leaves. *)
Lemma list_loans_table clk status_q s :
  let s' := sweep (clk 0%nat) s in
  let query (l : Loan) : bool :=
    match status_q with
    | None | Some "" => true
    | Some st => String.eqb (status l) st
    end in
  list_loans clk status_q s
  = (Ok ((λ d, mkLoanView (mkLoanOut (ObjectId_str d.1) d.2)
                 (name <$> by_str_id (map_to_list (db_member s)) !! member_id d.2)
                 (title <$> by_str_id (map_to_list (db_book s)) !! book_id d.2))
         <$> sort_borrowed_at_desc
               (filter (λ kv, query kv.2 = true) (map_to_list (db_loan s')))),
     s').
Proof.
  intros s' query. unfold list_loans. unfold_M. step_M.
  by rewrite !filter_all.
Qed.

Lemma status_asked_query status_q (l : Loan) :
  match status_q with
  | None | Some "" => true
  | Some st => String.eqb (status l) st
  end = true ↔ status_asked status_q l.
Proof.
  unfold status_asked. destruct status_q as [[|c st]|]; [done| |done].
  apply String.eqb_eq.
Qed.

(** X18.  What a listing of the loans answers.  It shows the loans as they
    are after the sweep: exactly those with the status asked for (all of them
    when no status, or an empty one, is given), each once, under its
    identifier written as a string, the latest [borrowed_at] first.  No loan
    of the answer is "borrowed" and past due: what was, is shown as
    "overdue". *)
Theorem list_loans_answer clk status_q s :
  let now := clk 0%nat in
  let s' := (list_loans clk status_q s).2 in
  ∃ out,
    (list_loans clk status_q s).1 = Ok out
    ∧ StronglySorted
        (λ v1 v2, borrowed_at (fields (view v2)) ≤ borrowed_at (fields (view v1)))
        out
    ∧ (∀ v, v ∈ out →
            ∃ lid l, db_loan s' !! lid = Some l ∧ status_asked status_q l
                     ∧ view v = mkLoanOut (ObjectId_str lid) l)
    ∧ (∀ lid l, db_loan s' !! lid = Some l → status_asked status_q l →
                ∃ v, v ∈ out ∧ view v = mkLoanOut (ObjectId_str lid) l)
    ∧ Z.of_nat (length out) = count_where (status_asked status_q) (db_loan s')
    ∧ (∀ v, v ∈ out →
            ¬ (status (fields (view v)) = "borrowed"
               ∧ due_at (fields (view v)) < now)).
Proof.
  intros now s'. pose proof (list_loans_table clk status_q s) as T.
  cbn zeta in T. subst s'. rewrite T. cbn [fst snd]. fold now.
  set (query := λ l : Loan, match status_q with
                            | None | Some "" => true
                            | Some st => String.eqb (status l) st end) in *.
  set (ds := sort_borrowed_at_desc
               (filter (λ kv : ObjectId * Loan, query kv.2 = true)
                       (map_to_list (db_loan (sweep now s))))).
  assert (Hds : ∀ lid l, (lid, l) ∈ ds
                         ↔ db_loan (sweep now s) !! lid = Some l
                           ∧ status_asked status_q l).
  { intros lid l. unfold ds.
    rewrite sort_borrowed_at_desc_sort_by, sort_by_Permutation.
    rewrite list_elem_of_filter, elem_of_map_to_list. cbn [snd].
    unfold query. rewrite status_asked_query. tauto. }
  eexists. split; [done|]. split_and!.
  - apply StronglySorted_fmap with
      (R1 := λ d1 d2 : ObjectId * Loan, borrowed_at d2.2 ≤ borrowed_at d1.2);
      [by intros [] []|].
    apply Sorted_StronglySorted; [intros ???; lia|].
    unfold ds. rewrite sort_borrowed_at_desc_sort_by.
    eapply Sorted_weaken; [|apply sort_by_Sorted].
    intros a b [H|H]; cbn beta in H; lia.
  - intros v (d & -> & Hd)%list_elem_of_fmap. destruct d as [lid l].
    apply Hds in Hd as [Hl Hq]. by exists lid, l.
  - intros lid l Hl Hq. eexists. split.
    + apply list_elem_of_fmap. exists (lid, l). split; [done|].
      apply Hds. by split.
    + done.
  - rewrite length_fmap. unfold ds.
    rewrite sort_borrowed_at_desc_sort_by, sort_by_Permutation.
    rewrite filter_map_to_list, length_map_to_list. unfold count_where.
    do 2 f_equal. apply map_filter_ext. intros i l _. cbn [snd].
    unfold query. apply status_asked_query.
  - intros v (d & -> & Hd)%list_elem_of_fmap. destruct d as [lid l].
    apply Hds in Hd as [Hl _]. cbn [view fields snd].
    rewrite sweep_lookup in Hl.
    destruct (db_loan s !! lid) as [l0|]; [|done]. cbn in Hl.
    injection Hl as <-.
    destruct (is_overdue now l0) eqn:Hov.
    + cbn [set_overdue status]. by intros [? _].
    + intros Hl'%is_overdue_spec. congruence.
Qed.

Lemma by_str_id_Some {A} (ds : list (ObjectId * A)) k x :
  by_str_id ds !! k = Some x → ∃ o, (o, x) ∈ ds ∧ ObjectId_str o = k.
Proof.
  unfold by_str_id. intros H%elem_of_list_to_map_2.
  apply elem_of_reverse, list_elem_of_fmap in H as ([o y] & [= -> ->] & Hin).
  by exists o.
Qed.

Lemma by_str_id_None {A} (ds : list (ObjectId * A)) k :
  by_str_id ds !! k = None ↔ ∀ o x, (o, x) ∈ ds → ObjectId_str o ≠ k.
Proof.
  unfold by_str_id. rewrite <- not_elem_of_list_to_map. split.
  - intros Hnot o x Hin Heq. apply Hnot.
    apply list_elem_of_fmap. exists (k, x). split; [done|].
    apply elem_of_reverse, list_elem_of_fmap. exists (o, x).
    by rewrite <- Heq.
  - intros Hall ([k' x] & -> & Hin)%list_elem_of_fmap.
    apply elem_of_reverse, list_elem_of_fmap in Hin as ([o y] & [= -> ->] & Hin).
    by apply (Hall o y).
Qed.

Lemma ObjectId_str_inj a b :
  (a < 2 ^ 96)%N → (b < 2 ^ 96)%N → ObjectId_str a = ObjectId_str b → a = b.
Proof.
  intros Ha Hb Heq.
  pose proof (ObjectId_of_str_str a) as Ha'.
  rewrite Heq, ObjectId_of_str_str in Ha'.
  rewrite !N.mod_small in Ha' by done. congruence.
Qed.

(** The name that [by_str_id] finds for the reference [ref]. *)
Lemma by_str_id_lookup {A B} (f : A → B) (m : gmap ObjectId A) ref :
  (∀ n, f <$> by_str_id (map_to_list m) !! ref = Some n →
        ∃ o x, m !! o = Some x ∧ ObjectId_str o = ref ∧ f x = n)
  ∧ (f <$> by_str_id (map_to_list m) !! ref = None
     ↔ ∀ o, is_Some (m !! o) → ObjectId_str o ≠ ref)
  ∧ (∀ o x, m !! o = Some x → ObjectId_str o = ref →
            (∀ o', is_Some (m !! o') → (o' < 2 ^ 96)%N) →
            f <$> by_str_id (map_to_list m) !! ref = Some (f x)).
Proof.
  assert (H1 : ∀ n, f <$> by_str_id (map_to_list m) !! ref = Some n →
               ∃ o x, m !! o = Some x ∧ ObjectId_str o = ref ∧ f x = n).
  { intros n (x & Hx & ->)%fmap_Some.
    apply by_str_id_Some in Hx as (o & Hin%elem_of_map_to_list & Ho).
    by exists o, x. }
  assert (H2 : f <$> by_str_id (map_to_list m) !! ref = None
               ↔ ∀ o, is_Some (m !! o) → ObjectId_str o ≠ ref).
  { rewrite fmap_None, by_str_id_None. split.
    - intros H o [x Hx]. apply (H o x). by apply elem_of_map_to_list.
    - intros H o x Hin%elem_of_map_to_list. apply H. by eexists. }
  split_and!; [done|done|].
  intros o x Hx Ho Hbound.
  destruct (f <$> by_str_id (map_to_list m) !! ref) as [n|] eqn:Hn.
  - destruct (H1 n eq_refl) as (o' & x' & Hx' & Ho' & <-).
    assert (o' = o) as ->.
    { apply ObjectId_str_inj; [apply Hbound; by eexists..|congruence]. }
    congruence.
  - exfalso. apply (proj1 H2 eq_refl o); [by eexists|done].
Qed.

(** X19.  The names in a listing of the loans.  [member_name] is the name
    of a member whose identifier, written as a string, is the [member_id] of
    the loan, and there is none exactly when no member has that identifier
    (the member was deleted, or the loan carries another spelling of it);
    when the identifiers of the members fit 96 bits that member is the only
    one.  [book_title] is found from [book_id] in the same way. *)
Theorem list_loans_names clk status_q s :
  ∃ out,
    (list_loans clk status_q s).1 = Ok out
    ∧ ∀ v, v ∈ out →
        let l := fields (view v) in
        (∀ n, member_name v = Some n →
              ∃ mid m, db_member s !! mid = Some m
                       ∧ ObjectId_str mid = member_id l ∧ name m = n)
        ∧ (member_name v = None
           ↔ ∀ mid, is_Some (db_member s !! mid) → ObjectId_str mid ≠ member_id l)
        ∧ (∀ mid m, db_member s !! mid = Some m →
                    ObjectId_str mid = member_id l →
                    (∀ o, is_Some (db_member s !! o) → (o < 2 ^ 96)%N) →
                    member_name v = Some (name m))
        ∧ (∀ t, book_title v = Some t →
                ∃ bid b, db_book s !! bid = Some b
                         ∧ ObjectId_str bid = book_id l ∧ title b = t)
        ∧ (book_title v = None
           ↔ ∀ bid, is_Some (db_book s !! bid) → ObjectId_str bid ≠ book_id l)
        ∧ (∀ bid b, db_book s !! bid = Some b →
                    ObjectId_str bid = book_id l →
                    (∀ o, is_Some (db_book s !! o) → (o < 2 ^ 96)%N) →
                    book_title v = Some (title b)).
Proof.
  pose proof (list_loans_table clk status_q s) as T. cbn zeta in T.
  rewrite T. cbn [fst]. eexists. split; [done|].
  intros v (d & -> & _)%list_elem_of_fmap.
  cbn [member_name book_title view fields].
  destruct (by_str_id_lookup name (db_member s) (member_id d.2))
    as (M1 & M2 & M3).
  destruct (by_str_id_lookup title (db_book s) (book_id d.2))
    as (B1 & B2 & B3).
  split_and!; done.
Qed.

Lemma filter_always {A} (P : A → Prop) `{∀ x, Decision (P x)} (l : list A) :
  (∀ x, P x) → filter P l = l.
Proof.
  intros HP. induction l as [|x l IH]; [done|].
  rewrite filter_cons, IH. by rewrite decide_True.
Qed.

Lemma sort_by_leb_Sorted {A} (key : A → string) (l : list A) :
  Sorted (λ a b, String.leb (key a) (key b) = true)
         (sort_by (λ a b, String.leb (key a) (key b)) l).
Proof.
  eapply Sorted_weaken; [|apply sort_by_Sorted].
  intros a b [Hba|Hab]; cbn beta in *; [|done].
  destruct (String.leb_total (key a) (key b)); congruence.
Qed.

Lemma Sorted_fmap_weak {A B} (f : A → B) (R : A → A → Prop)
    (R' : B → B → Prop) l :
  (∀ a b, R a b → R' (f a) (f b)) → Sorted R l → Sorted R' (f <$> l).
Proof.
  intros HR. induction 1 as [|x l _ IH Hhd]; cbn; constructor; [done|].
  destruct Hhd; cbn; constructor. by apply HR.
Qed.

(** The rows of a listing: the documents that pass [query], each under its
    identifier written as a string, sorted on [key]. *)
Lemma listing_rows {A} (key : A → string) (query : A → bool)
    (m : gmap ObjectId A) :
  let out := (λ d, mkOut (ObjectId_str d.1) d.2)
             <$> sort_by (λ d1 d2, String.leb (key d1.2) (key d2.2))
                   (filter (λ kv, query kv.2 = true) (map_to_list m)) in
  Sorted (λ d1 d2, String.leb (key (out_doc d1)) (key (out_doc d2)) = true) out
  ∧ (∀ d, d ∈ out
          ↔ ∃ oid a, m !! oid = Some a ∧ query a = true
                     ∧ d = mkOut (ObjectId_str oid) a)
  ∧ ((∀ a, query a = true) → length out = size m).
Proof.
  intros out. subst out. split_and!.
  - eapply Sorted_fmap_weak; [|apply (sort_by_leb_Sorted (λ d, key d.2))].
    by intros [] [].
  - intros d. rewrite list_elem_of_fmap. split.
    + intros ([oid a] & -> & Hin). rewrite sort_by_Permutation in Hin.
      apply list_elem_of_filter in Hin as [Hq Hin%elem_of_map_to_list].
      by exists oid, a.
    + intros (oid & a & Ha & Hq & ->). exists (oid, a). split; [done|].
      rewrite sort_by_Permutation. apply list_elem_of_filter. cbn [snd].
      split; [done|]. by apply elem_of_map_to_list.
  - intros Hq. rewrite length_fmap, sort_by_Permutation.
    rewrite filter_always; [apply length_map_to_list|].
    intros kv. apply Hq.
Qed.

(** What [list_books] answers and leaves. *)
Lemma list_books_table regex q c s :
  let by_category (b : Book) : bool :=
    match c with
    | None | Some "" => true
    | Some c => bool_decide (category b = Some c)
    end in
  let rows (text : Book → bool) :=
    (λ d, mkOut (ObjectId_str d.1) d.2)
    <$> sort_by (λ d1 d2, String.leb (title d1.2) (title d2.2))
          (filter (λ kv, text kv.2 && by_category kv.2 = true)
                  (map_to_list (db_book s))) in
  match q with
  | None | Some "" =>
      list_books regex q c s = (Fetched (Ok (rows (λ _, true))), s)
  | Some pat =>
      match regex pat with
      | None => list_books regex q c s = (OperationFailure, s)
      | Some matches =>
          list_books regex q c s
          = (Fetched (Ok (rows (λ b, matches (title b) || matches (author b)
                                     || matches (isbn b)
                                     || existsb matches (tags b)))), s)
      end
  end.
Proof.
  intros by_category rows. unfold list_books.
  destruct q as [[|a pat]|]; [|destruct (regex _)|]; unfold_M; by step_M.
Qed.

Lemma by_category_asked c (b : Book) :
  match c with
  | None | Some "" => true
  | Some c0 => bool_decide (category b = Some c0)
  end = true
  ↔ match c with
    | None | Some "" => True
    | Some c0 => category b = Some c0
    end.
Proof. destruct c as [[|a c0]|]; [done| |done]. apply bool_decide_eq_true. Qed.

(** The rows of a listing of the books, for a filter [text] on the text
    fields and the category [c]. *)
Lemma list_books_rows c (text : Book → bool) s :
  let out :=
    (λ d, mkOut (ObjectId_str d.1) d.2)
    <$> sort_by (λ d1 d2, String.leb (title d1.2) (title d2.2))
          (filter (λ kv, text kv.2
                         && match c with
                            | None | Some "" => true
                            | Some c0 => bool_decide (category kv.2 = Some c0)
                            end = true)
                  (map_to_list (db_book s))) in
  Sorted (λ d1 d2, String.leb (title (out_doc d1)) (title (out_doc d2)) = true)
         out
  ∧ (∀ d, d ∈ out
          ↔ ∃ oid b, db_book s !! oid = Some b
                     ∧ (text b = true
                        ∧ match c with
                          | None | Some "" => True
                          | Some c0 => category b = Some c0
                          end)
                     ∧ d = mkOut (ObjectId_str oid) b)
  ∧ ((∀ b, text b = true) → (c = None ∨ c = Some "") →
     length out = size (db_book s)).
Proof.
  intros out. subst out.
  destruct (listing_rows title
              (λ b, text b
                    && match c with
                       | None | Some "" => true
                       | Some c0 => bool_decide (category b = Some c0)
                       end) (db_book s)) as (HS & Hin & Hlen).
  split; [exact HS|]. split.
  - intros d. rewrite Hin. do 2 (apply exist_proper; intros ?).
    cbn beta. by rewrite andb_true_iff, by_category_asked.
  - intros Ht Hc. apply Hlen. intros b. rewrite Ht.
    by destruct Hc as [-> | ->].
Qed.

(** X20.  What a listing of the books answers.  It writes nothing.  When
    the request carries a pattern (not empty) that the database refuses, the
    request fails with the driver's OperationFailure.  Otherwise it shows
    exactly the books that match what was asked (the pattern, when one is
    given and not empty, on the title, the author, the ISBN or one of the
    tags; the category, when one is given and not empty, by equality), each
    under its identifier written as a string, by title in ascending order.
    Without pattern and category every book is shown, once. *)
Theorem list_books_answer regex q c s :
  (list_books regex q c s).2 = s
  ∧ ((list_books regex q c s).1 = OperationFailure ↔ refused regex q)
  ∧ (¬ refused regex q →
     ∃ out,
       list_books regex q c s = (Fetched (Ok out), s)
       ∧ Sorted (λ d1 d2,
                   String.leb (title (out_doc d1)) (title (out_doc d2)) = true)
                out
       ∧ (∀ d, d ∈ out
               ↔ ∃ oid b, db_book s !! oid = Some b ∧ book_asked regex q c b
                          ∧ d = mkOut (ObjectId_str oid) b)
       ∧ ((q = None ∨ q = Some "") → (c = None ∨ c = Some "") →
          length out = size (db_book s))).
Proof.
  pose proof (list_books_table regex q c s) as T. cbn zeta in T.
  unfold refused, book_asked.
  destruct q as [[|a pat]|]; [|destruct (regex _) as [matches|] eqn:Hre|];
    rewrite T; cbn [fst snd]; (split; [done|]); (split; [done|]);
    try done; intros _; (eexists; split; [done|]).
  - destruct (list_books_rows c (λ _, true) s) as (HS & Hin & Hlen).
    split; [exact HS|]. split; [|intros _; by apply Hlen].
    intros d. rewrite Hin. do 2 (apply exist_proper; intros ?). intuition.
  - destruct (list_books_rows c
                (λ b, matches (title b) || matches (author b)
                      || matches (isbn b) || existsb matches (tags b)) s)
      as (HS & Hin & Hlen).
    split; [exact HS|]. split; [|by intros [[=]|[=]]].
    intros d. rewrite Hin. do 2 (apply exist_proper; intros ?).
    cbn beta. rewrite !orb_true_iff, existsb_exists.
    setoid_rewrite <- list_elem_of_In. split.
    + intros (Hb & (Ht & Hcat) & ->). split; [done|]. split; [|done].
      split; [|done]. exists matches. split; [done|]. tauto.
    + intros (Hb & ((f & [= <-] & Ht) & Hcat) & ->). tauto.
  - destruct (list_books_rows c (λ _, true) s) as (HS & Hin & Hlen).
    split; [exact HS|]. split; [|intros _; by apply Hlen].
    intros d. rewrite Hin. do 2 (apply exist_proper; intros ?). intuition.
Qed.

(** In [Sample.library], with a database that refuses the patterns opening
    a group: the pattern "(" fails the request, "Du" shows "Dune", no
    pattern shows "Dune" then "Emma". *)
Example list_books_sample :
  list_books Desk.prefix_match (Some "(") None Sample.library
  = (OperationFailure, Sample.library)
  ∧ list_books Desk.prefix_match (Some "Du") None Sample.library
    = (Fetched (Ok [mkOut Sample.dune_id Sample.dune]), Sample.library)
  ∧ list_books Desk.prefix_match None None Sample.library
    = (Fetched (Ok [mkOut Sample.dune_id Sample.dune;
                    mkOut Sample.emma_id Sample.emma]), Sample.library).
Proof. split_and!; vm_compute; reflexivity. Qed.

(** What [list_members] answers and leaves. *)
Lemma list_members_table regex q s :
  let rows (query : Member → bool) :=
    (λ d, mkOut (ObjectId_str d.1) d.2)
    <$> sort_by (λ d1 d2, String.leb (name d1.2) (name d2.2))
          (filter (λ kv, query kv.2 = true) (map_to_list (db_member s))) in
  match q with
  | None | Some "" =>
      list_members regex q s = (Fetched (Ok (rows (λ _, true))), s)
  | Some pat =>
      match regex pat with
      | None => list_members regex q s = (OperationFailure, s)
      | Some matches =>
          list_members regex q s
          = (Fetched (Ok (rows (λ m, matches (name m) || matches (email m)
                                     || match phone m with
                                        | Some p => matches p
                                        | None => false
                                        end))), s)
      end
  end.
Proof.
  intros rows. unfold list_members.
  destruct q as [[|a pat]|]; [|destruct (regex _)|]; unfold_M; by step_M.
Qed.

(** X21.  What a listing of the members answers.  It writes nothing.  When
    the request carries a pattern (not empty) that the database refuses, the
    request fails with the driver's OperationFailure.  Otherwise it shows
    exactly the members that match the pattern on the name, the e-mail
    address or the phone number (a member without phone number can only match
    on the first two), by name in ascending order; without a pattern, or with
    an empty one, every member is shown, once. *)
Theorem list_members_answer regex q s :
  (list_members regex q s).2 = s
  ∧ ((list_members regex q s).1 = OperationFailure ↔ refused regex q)
  ∧ (¬ refused regex q →
     ∃ out,
       list_members regex q s = (Fetched (Ok out), s)
       ∧ Sorted (λ d1 d2,
                   String.leb (name (out_doc d1)) (name (out_doc d2)) = true)
                out
       ∧ (∀ d, d ∈ out
               ↔ ∃ oid m, db_member s !! oid = Some m ∧ member_asked regex q m
                          ∧ d = mkOut (ObjectId_str oid) m)
       ∧ ((q = None ∨ q = Some "") → length out = size (db_member s))).
Proof.
  pose proof (list_members_table regex q s) as T. cbn zeta in T.
  unfold refused, member_asked.
  destruct q as [[|a pat]|]; [|destruct (regex _) as [matches|] eqn:Hre|];
    rewrite T; cbn [fst snd]; (split; [done|]); (split; [done|]);
    try done; intros _; (eexists; split; [done|]).
  - destruct (listing_rows name (λ _, true) (db_member s))
      as (HS & Hin & Hlen).
    split; [exact HS|]. split; [|intros _; by apply Hlen].
    intros d. rewrite Hin. do 2 (apply exist_proper; intros ?). tauto.
  - destruct (listing_rows name
                (λ m, matches (name m) || matches (email m)
                      || match phone m with
                         | Some p => matches p
                         | None => false
                         end) (db_member s)) as (HS & Hin & Hlen).
    split; [exact HS|]. split; [|by intros [[=]|[=]]].
    intros d. rewrite Hin.
    apply exist_proper; intros oid. apply exist_proper; intros m.
    cbn beta. rewrite !orb_true_iff. split.
    + intros (Hm & Ht & ->). split; [done|]. split; [|done].
      exists matches. split; [done|].
      destruct (phone m) as [p|]; [|destruct Ht as [[?|?]|?]; eauto; done].
      destruct Ht as [[?|?]|?]; eauto.
    + intros (Hm & (f & [= <-] & Ht) & ->). split; [done|]. split; [|done].
      destruct Ht as [?|[?|(p & -> & ?)]]; tauto.
  - destruct (listing_rows name (λ _, true) (db_member s))
      as (HS & Hin & Hlen).
    split; [exact HS|]. split; [|intros _; by apply Hlen].
    intros d. rewrite Hin. do 2 (apply exist_proper; intros ?). tauto.
Qed.

(** In [Sample.library], with the same database: the pattern "(" fails the
    request, "An" shows Ann, no pattern shows Ann, Bob and Cyd. *)
Example list_members_sample :
  list_members Desk.prefix_match (Some "(") Sample.library
  = (OperationFailure, Sample.library)
  ∧ list_members Desk.prefix_match (Some "An") Sample.library
    = (Fetched (Ok [mkOut Sample.ann_id Sample.ann]), Sample.library)
  ∧ list_members Desk.prefix_match None Sample.library
    = (Fetched (Ok [mkOut Sample.ann_id Sample.ann;
                    mkOut Sample.bob_id Sample.bob;
                    mkOut Sample.cyd_id Sample.cyd]), Sample.library).
Proof. split_and!; vm_compute; reflexivity. Qed.

(** ** Identifiers in answers, repeated requests *)

Lemma hex_digit_lt c d : hex_digit c = Some d → (d < 16)%N.
Proof.
  unfold hex_digit. intros H.
  repeat (case_match; [injection H as <-;
                       repeat match goal with
                              | H : (_ && _)%N = true |- _ =>
                                  apply andb_true_iff in H as [?%N.leb_le ?%N.leb_le]
                              | H : andb _ _ = true |- _ =>
                                  apply andb_true_iff in H as [?%N.leb_le ?%N.leb_le]
                              end; lia|]).
  done.
Qed.

Lemma from_hex_bound s a n :
  from_hex s a = Some n → (n < (a + 1) * 16 ^ N.of_nat (String.length s))%N.
Proof.
  revert a. induction s as [|c s IH]; intros a; cbn [from_hex String.length].
  - intros [= <-]. cbn. lia.
  - destruct (hex_digit c) as [d|] eqn:Hd; [|done].
    intros Hn%IH. apply hex_digit_lt in Hd.
    rewrite Nat2N.inj_succ, N.pow_succ_r'.
    pose proof (N.pow_nonzero 16 (N.of_nat (String.length s)) ltac:(lia)).
    nia.
Qed.

(** An identifier that a string denotes fits 96 bits, and its string form
    denotes it again. *)
Lemma ObjectId_of_str_bound s o :
  ObjectId_of_str s = Some o →
  (o < 2 ^ 96)%N ∧ ObjectId_of_str (ObjectId_str o) = Some o.
Proof.
  unfold ObjectId_of_str at 1. destruct (_ =? _)%nat eqn:Hlen; [|done].
  intros Ho%from_hex_bound. apply Nat.eqb_eq in Hlen. rewrite Hlen in Ho.
  assert (o < 2 ^ 96)%N by (change (2 ^ 96)%N with ((0 + 1) * 16 ^ N.of_nat 24)%N; done).
  split; [done|]. by rewrite ObjectId_of_str_str, N.mod_small.
Qed.

(** X22.  The answer of a return is the loan as it is stored after the
    request, and the [id] it carries denotes that loan: it is the lower-case
    spelling of the identifier, and resolves to the same loan as the
    [loan_id] of the request, whatever spelling the request used. *)
Theorem return_book_answer_id clk loan_id s out :
  (return_book clk loan_id s).1 = Ok out →
  ∃ lid l,
    out = Some (mkLoanOut (ObjectId_str lid) l)
    ∧ ObjectId_of_str loan_id = Some lid
    ∧ ObjectId_of_str (ObjectId_str lid) = Some lid
    ∧ db_loan (return_book clk loan_id s).2 !! lid = Some l
    ∧ status l = "returned".
Proof.
  intros Hout. pose proof (return_book_table clk loan_id s) as T.
  destruct (ObjectId_of_str loan_id) as [lid|] eqn:Hid;
    [|rewrite T in Hout; discriminate].
  destruct (ObjectId_of_str_bound _ _ Hid) as [_ Hrt].
  destruct (db_loan s !! lid) as [l|] eqn:Hl;
    [|rewrite T in Hout; discriminate].
  destruct (String.eqb (status l) "returned") eqn:Hst.
  - rewrite T in *. injection Hout as <-. exists lid, l.
    split_and!; try done. by apply String.eqb_eq.
  - destruct (ObjectId_of_str (book_id l)); rewrite T in *; [|discriminate].
    injection Hout as <-. eexists lid, _. split_and!; try done.
    cbn [snd returned_db db_loan]. by rewrite lookup_alter_eq, Hl.
Qed.

Lemma return_book_answer_id_witness :
  ∃ lid l,
    ObjectId_of_str "0000000000000000000000C1" = Some lid
    ∧ db_loan (return_book Sample.clock "0000000000000000000000C1"
                 Sample.library).2 !! lid = Some l
    ∧ status l = "returned".
Proof.
  destruct (return_book_answer_id Sample.clock "0000000000000000000000C1"
              Sample.library
              (Some (mkLoanOut Sample.loan_id
                       (set_returned (Sample.clock 0) (Sample.clock 1)
                          Sample.ann_emma)))
              ltac:(vm_compute; reflexivity))
    as (lid & l & _ & H2 & _ & H4 & H5).
  exists lid, l. split_and!; assumption.
Defined.

(** X23.  Nothing limits what one member borrows of one book: when a book
    has at least two copies available, the same borrow request goes through
    twice in a row, makes two loans under two different identifiers, and
    takes two copies. *)
Theorem borrow_book_twice clk clk' payload s mid bid m b :
  ObjectId_of_str (req_member_id payload) = Some mid →
  ObjectId_of_str (req_book_id payload) = Some bid →
  db_member s !! mid = Some m →
  is_active m ≠ Some false →
  db_book s !! bid = Some b →
  2 ≤ avail b →
  let s1 := (borrow_book clk payload s).2 in
  let s2 := (borrow_book clk' payload s1).2 in
  is_ok (borrow_book clk payload s).1 = true
  ∧ is_ok (borrow_book clk' payload s1).1 = true
  ∧ (∃ lid1 lid2,
       lid1 ≠ lid2 ∧ db_loan s !! lid1 = None ∧ db_loan s !! lid2 = None
       ∧ db_loan s2
         = <[lid2 := new_loan clk' payload]>
             (<[lid1 := new_loan clk payload]> (db_loan s)))
  ∧ (∃ b2, db_book s2 !! bid = Some b2
           ∧ copies_available b2 = Some (avail b - 2)
           ∧ total_copies b2 = total_copies b).
Proof.
  intros Hm Hb Hmem Hact%default_true_active Hbook Hav s1 s2.
  destruct (borrow_book_ok clk payload s mid bid m b) as [r Hr];
    [done..|lia|].
  subst s1 s2. rewrite Hr. cbn [fst snd is_ok].
  set (s1 := borrowed_db clk payload bid s).
  assert (Hbook1 : db_book s1 !! bid
                   = Some (inc_copies_available (-1) (clk 2%nat) b)).
  { unfold s1. cbn [borrowed_db db_book]. by rewrite lookup_alter_eq, Hbook. }
  destruct (borrow_book_ok clk' payload s1 mid bid m
              (inc_copies_available (-1) (clk 2%nat) b)) as [r' Hr'];
    [done..|rewrite avail_inc; lia|].
  rewrite Hr'. cbn [fst snd is_ok]. split_and!; [done|done| |].
  - exists (fresh (dom (db_loan s))), (fresh (dom (db_loan s1))).
    assert (H1 : db_loan s !! fresh (dom (db_loan s)) = None)
      by apply not_elem_of_dom, is_fresh.
    assert (H2 : db_loan s1 !! fresh (dom (db_loan s1)) = None)
      by apply not_elem_of_dom, is_fresh.
    unfold s1 in H2. cbn [borrowed_db db_loan] in H2.
    apply lookup_insert_None in H2 as [H2 Hne].
    unfold s1. cbn [borrowed_db db_loan]. by split_and!.
  - cbn [borrowed_db db_book]. rewrite lookup_alter_eq, Hbook1.
    eexists. split; [done|].
    cbn [inc_copies_available copies_available total_copies].
    unfold avail. cbn. split; [f_equal; lia|done].
Qed.

Lemma borrow_book_twice_witness :
  let persuasion :=
    mkBook "Persuasion" "Jane Austen" "9780141439686" None None
           2 (Some 2) [] None in
  let s0 := mkDB {[ 177%N := persuasion ]} {[ 161%N := Sample.ann ]} ∅ in
  is_ok (borrow_book Sample.clock Sample.ann_dune
           (borrow_book Sample.clock Sample.ann_dune s0).2).1 = true.
Proof.
  intros persuasion s0.
  refine (proj1 (proj2 (borrow_book_twice Sample.clock Sample.clock
                          Sample.ann_dune s0 161%N 177%N Sample.ann persuasion
                          _ _ _ _ _ _)));
    try (vm_compute; reflexivity); vm_compute; discriminate.
Defined.

Lemma sweep_sweep now now' s :
  now ≤ now' → sweep now' (sweep now s) = sweep now' s.
Proof.
  intros Hle. unfold sweep. cbn [db_book db_member db_loan]. f_equal.
  rewrite <- map_fmap_compose. apply map_fmap_ext. intros lid l _.
  cbn [compose]. destruct (is_overdue now l) eqn:Hl; [|done].
  apply is_overdue_spec in Hl as [Hb Hd].
  assert (is_overdue now' l = true) as -> by (apply is_overdue_spec; split; [done|lia]).
  reflexivity.
Qed.

(** X24.  Listing the loans twice leaves the database that the later
    listing alone would leave: a sweep made at a clock reading is absorbed by
    a sweep made at the same or a later reading. *)
Theorem list_loans_twice clk clk' status_q status_q' s :
  clk 0%nat ≤ clk' 0%nat →
  (list_loans clk' status_q' (list_loans clk status_q s).2).2
  = (list_loans clk' status_q' s).2.
Proof.
  intros Hle.
  destruct (list_loans_db clk status_q s) as [out ->]. cbn [snd].
  destruct (list_loans_db clk' status_q' (sweep (clk 0%nat) s)) as [out1 ->].
  destruct (list_loans_db clk' status_q' s) as [out2 ->]. cbn [snd].
  by apply sweep_sweep.
Qed.

Lemma list_loans_twice_witness :
  (list_loans (λ _, Sample.clock 100) (Some "overdue")
     (list_loans Sample.clock None Sample.library).2).2
  = (list_loans (λ _, Sample.clock 100) (Some "overdue") Sample.library).2.
Proof.
  apply (list_loans_twice Sample.clock (λ _, Sample.clock 100)).
  vm_compute. discriminate.
Defined.
